(** * Key bootstrap and delegation handoff of the expo-starter frontend

    A shallow embedding of two pieces of the repository:

    - the redirect landing page script (parseParams, renderError,
      buildRedirectURLWithDelegation, main, PublicKeyOnlyIdentity), and
    - the [initAesKey] callback of [RootLayoutNav] in [app/_layout.tsx].

    JavaScript strings are modelled as [string] (a sequence of UTF-8 code
    units), binary data ([Uint8Array], [ArrayBuffer]) as [list byte],
    thrown values as [Js.Unknown], and every effect (DOM, React state,
    remote calls) as explicit state passing. *)

From Stdlib Require Import String Ascii List Bool Arith.
From Stdlib Require Import Strings.Byte.
Import ListNotations.
Local Open Scope string_scope.

(* ===================================================================== *)
(** ** JavaScript values shared by both programs *)
(* ===================================================================== *)

Module Js.

Definition Bytes := list byte.

(** An [Error] object: [name] and [message]. *)
Record Error := mkError { name : string; message : string }.

(** [new Error(msg)] *)
Definition new_Error (msg : string) : Error :=
  {| name := "Error"; message := msg |}.

(** A value of type [unknown], such as what a [throw] or a rejected
    promise carries: an instance of [Error], or any other value, of which
    only [String(v)] is ever observed. *)
Inductive Unknown :=
| ErrorObject (e : Error)
| OtherValue (text : string).

(** Truthiness of a string: only the empty string is falsy. *)
Definition truthy (s : string) : bool :=
  match s with
  | EmptyString => false
  | String _ _ => true
  end.

(** Truthiness of [string | null | undefined]. *)
Definition truthy_opt (o : option string) : bool :=
  match o with
  | None => false
  | Some s => truthy s
  end.

(** [Error.prototype.toString] *)
Definition Error_toString (e : Error) : string :=
  if negb (truthy (name e)) then message e
  else if negb (truthy (message e)) then name e
  else name e ++ ": " ++ message e.

(** [String(v)], also what a template literal prints. *)
Definition String_of (v : Unknown) : string :=
  match v with
  | ErrorObject e => Error_toString e
  | OtherValue s => s
  end.

(** [err instanceof Error ? err : new Error(String(err))] *)
Definition as_Error (v : Unknown) : Error :=
  match v with
  | ErrorObject e => e
  | OtherValue s => new_Error s
  end.

End Js.

(* ===================================================================== *)
(** ** Percent encoding: [encodeURIComponent] and its inverse *)
(* ===================================================================== *)

Module Uri.

(** The characters [encodeURIComponent] leaves alone:
    [A-Z a-z 0-9 - _ . ! ~ * ' ( )]. *)
Definition unreserved (c : ascii) : bool :=
  let n := nat_of_ascii c in
  (((65 <=? n) && (n <=? 90)) || ((97 <=? n) && (n <=? 122))
   || ((48 <=? n) && (n <=? 57)))%nat
  || existsb (Ascii.eqb c) (list_ascii_of_string "-_.!~*'()").

Definition hexDigit (n : nat) : ascii :=
  nth n (list_ascii_of_string "0123456789ABCDEF") "0"%char.

Definition hexValue (c : ascii) : option nat :=
  let n := nat_of_ascii c in
  if ((48 <=? n) && (n <=? 57))%nat then Some (n - 48)
  else if ((65 <=? n) && (n <=? 70))%nat then Some (n - 55)
  else if ((97 <=? n) && (n <=? 102))%nat then Some (n - 87)
  else None.

(** One code unit: itself, or [%XX] with upper-case hexadecimal digits. *)
Definition encodeUnit (c : ascii) : string :=
  if unreserved c then String c EmptyString
  else
    let n := nat_of_ascii c in
    String "%" (String (hexDigit (n / 16)) (String (hexDigit (n mod 16)) EmptyString)).

Fixpoint encodeURIComponent (s : string) : string :=
  match s with
  | EmptyString => EmptyString
  | String c rest => encodeUnit c ++ encodeURIComponent rest
  end.

(** [decodeURIComponent] on code units: [%XX] becomes one unit, a [%] not
    followed by two hexadecimal digits is a [URIError] ([None]). *)
Fixpoint decodeURIComponent (s : string) : option string :=
  match s with
  | EmptyString => Some EmptyString
  | String c rest =>
      if Ascii.eqb c "%" then
        match rest with
        | String h (String l rest') =>
            match hexValue h, hexValue l with
            | Some a, Some b =>
                option_map (String (ascii_of_nat (16 * a + b)))
                           (decodeURIComponent rest')
            | _, _ => None
            end
        | _ => None
        end
      else option_map (String c) (decodeURIComponent rest)
  end.

(** The characters an encoded component is made of. *)
Definition safe_char (c : ascii) : bool :=
  unreserved c || Ascii.eqb c "%".

End Uri.

(* ===================================================================== *)
(** ** The redirect landing page (delegation handoff) *)
(* ===================================================================== *)

Module Handoff.
Import Js.

Definition PublicKey := Bytes.
Definition Signature := Bytes.

(** The two methods of a [SignIdentity] object. *)
Record SignIdentity := mkSignIdentity {
  getPublicKey : PublicKey;
  sign : Bytes -> Unknown + Signature
}.

(** The two errors the script creates itself, under the names the
    specification gives them. *)
Definition MissingParameter : Error :=
  new_Error "Missing redirect_uri, pubkey, or ii_uri in query string".

Definition SigningNotSupported : Error :=
  new_Error "Cannot sign with incomplete identity".

(** [class PublicKeyOnlyIdentity extends SignIdentity] *)
Definition PublicKeyOnlyIdentity (publicKey : PublicKey) : SignIdentity :=
  {| getPublicKey := publicKey;
     sign := fun _blob => inl (ErrorObject SigningNotSupported) |}.

(** Delegation chains of @dfinity/identity. *)
Record Delegation := mkDelegation {
  pubkey : Bytes;
  expiration : nat;
  targets : option (list Bytes)
}.

Record SignedDelegation := mkSignedDelegation {
  delegation : Delegation;
  signature : Bytes
}.

Record DelegationChain := mkDelegationChain {
  delegations : list SignedDelegation;
  publicKey : Bytes
}.

(** What [authClient.getIdentity() as DelegationIdentity] really is: the
    cast is unchecked, so the object may lack [getDelegation]. *)
Inductive IdentityObject :=
| WithDelegation (chain : DelegationChain)
| WithoutDelegation.

Record AuthClient := mkAuthClient { client_identity : SignIdentity }.

(** The outcome of one [authClient.login] call. *)
Inductive LoginOutcome :=
| LoginRejects (error : Unknown)
| LoginOnSuccess (identity_after : IdentityObject)
| LoginOnError (error : option string).

(** Library code and the identity provider, as seen by the script. *)
Record Env := mkEnv {
  (** [Ed25519PublicKey.fromDer(fromHex(hex))] *)
  fromDer_fromHex : string -> Unknown + PublicKey;
  (** [AuthClient.create({ identity })] *)
  AuthClient_create : SignIdentity -> Unknown + AuthClient;
  (** [authClient.login({ identityProvider, ... })] *)
  AuthClient_login : AuthClient -> string -> LoginOutcome;
  (** [JSON.stringify(chain.toJSON())] *)
  JSON_stringify_toJSON : DelegationChain -> string
}.

(** The [#error] paragraph: its text and [style.display]. *)
Record ErrorElement := mkErrorElement {
  textContent : string;
  display : string
}.

(** What the click listener closes over. *)
Record Listener := mkListener {
  l_redirectUri : string;
  l_iiUri : string;
  l_authClient : AuthClient
}.

(** The page: the query of [window.location.href], the two elements the
    script looks up (absent when [querySelector] returns [null]), the URL
    assigned to [window.location.href] if any, and the console. *)
Record Page := mkPage {
  searchParams : list (string * string);
  errorElement : option ErrorElement;
  loginButton : option (list Listener);
  navigation : option string;
  console : list string
}.

(** Effects on the page, with exceptions that keep the effects made
    before the throw. *)
Definition Dom (A : Type) : Type := Page -> (Unknown + A) * Page.

Definition ret {A} (a : A) : Dom A := fun p => (inr a, p).

Definition bind {A B} (m : Dom A) (k : A -> Dom B) : Dom B :=
  fun p =>
    match m p with
    | (inr a, p') => k a p'
    | (inl e, p') => (inl e, p')
    end.

Definition throw {A} (e : Unknown) : Dom A := fun p => (inl e, p).

Definition try_catch {A} (m : Dom A) (handler : Unknown -> Dom A) : Dom A :=
  fun p =>
    match m p with
    | (inr a, p') => (inr a, p')
    | (inl e, p') => handler e p'
    end.

Definition lift {A} (r : Unknown + A) : Dom A := fun p => (r, p).

Declare Scope dom_scope.
Delimit Scope dom_scope with dom.
Notation "x <- m ;; k" := (bind m (fun x => k))
  (at level 61, m at next level, right associativity) : dom_scope.
Notation "m ;; k" := (bind m (fun _ => k))
  (at level 61, right associativity) : dom_scope.
Local Open Scope dom_scope.

Definition console_error (line : string) : Dom unit :=
  fun p => (inr tt, {| searchParams := searchParams p;
                       errorElement := errorElement p;
                       loginButton := loginButton p;
                       navigation := navigation p;
                       console := (console p ++ [line])%list |}).

Definition set_errorElement (el : ErrorElement) : Dom unit :=
  fun p => (inr tt, {| searchParams := searchParams p;
                       errorElement := Some el;
                       loginButton := loginButton p;
                       navigation := navigation p;
                       console := console p |}).

(** [window.location.href = url] *)
Definition assign_location_href (url : string) : Dom unit :=
  fun p => (inr tt, {| searchParams := searchParams p;
                       errorElement := errorElement p;
                       loginButton := loginButton p;
                       navigation := Some url;
                       console := console p |}).

(** [loginButton.addEventListener("click", listener)]; on [null] the
    property access throws a [TypeError]. *)
Definition null_addEventListener : Error :=
  {| name := "TypeError";
     message := "Cannot read properties of null (reading 'addEventListener')" |}.

Definition addEventListener_click (l : Listener) : Dom unit :=
  fun p =>
    match loginButton p with
    | None => (inl (ErrorObject null_addEventListener), p)
    | Some ls => (inr tt, {| searchParams := searchParams p;
                             errorElement := errorElement p;
                             loginButton := Some (ls ++ [l])%list;
                             navigation := navigation p;
                             console := console p |})
    end.

(** [url.searchParams.get(name)]: the first value, or [null]. *)
Fixpoint get (name : string) (params : list (string * string)) : option string :=
  match params with
  | [] => None
  | (k, v) :: rest => if String.eqb k name then Some v else get name rest
  end.

Definition formatError (prefix : string) (error : Unknown) : string :=
  "Internet Identity " ++ prefix ++ ": " ++
  match error with
  | ErrorObject e => message e
  | OtherValue _ => String_of error
  end.

Definition renderError (message : string) : Dom unit :=
  fun p =>
    match errorElement p with
    | None => console_error "Error element not found" p
    | Some _ =>
        set_errorElement
          {| textContent := message;
             display := if truthy message then "block" else "none" |} p
    end.

Record ParsedParams := mkParsedParams {
  redirectUri : string;
  identity : SignIdentity;
  iiUri : string
}.

Definition parseParams (env : Env) : Dom ParsedParams :=
  fun p =>
    let redirectUri :=
      match get "redirect_uri" (searchParams p) with
      | Some s => if truthy s then s else EmptyString
      | None => EmptyString
      end in
    let pubKey := get "pubkey" (searchParams p) in
    let iiUri := get "ii_uri" (searchParams p) in
    let missing : Dom ParsedParams :=
      let error := MissingParameter in
      renderError (message error) ;; throw (ErrorObject error) in
    if negb (truthy redirectUri) || negb (truthy_opt pubKey)
       || negb (truthy_opt iiUri)
    then missing p
    else
      match pubKey, iiUri with
      | Some pubKey, Some iiUri =>
          (key <- lift (fromDer_fromHex env pubKey) ;;
           let identity := PublicKeyOnlyIdentity key in
           ret {| redirectUri := redirectUri;
                  identity := identity;
                  iiUri := iiUri |}) p
      | _, _ => missing p (* not reached: both are truthy here *)
      end.

Definition getDelegation (i : IdentityObject) : Unknown + DelegationChain :=
  match i with
  | WithDelegation chain => inr chain
  | WithoutDelegation =>
      inl (ErrorObject {| name := "TypeError";
                          message := "delegationIdentity.getDelegation is not a function" |})
  end.

Definition buildRedirectURLWithDelegation (env : Env) (redirectUri : string)
    (delegationIdentity : IdentityObject) : Unknown + string :=
  match getDelegation delegationIdentity with
  | inl e => inl e
  | inr chain =>
      let delegationString := JSON_stringify_toJSON env chain in
      let encodedDelegation := Uri.encodeURIComponent delegationString in
      inr (redirectUri ++ "?delegation=" ++ encodedDelegation)
  end.

(** The click listener registered by [main]. *)
Definition onClick (env : Env) (l : Listener) : Dom unit :=
  renderError EmptyString ;;
  try_catch
    (match AuthClient_login env (l_authClient l) (l_iiUri l) with
     | LoginRejects error => throw error
     | LoginOnSuccess delegationIdentity =>
         try_catch
           (renderError EmptyString ;;
            url <- lift (buildRedirectURLWithDelegation env (l_redirectUri l)
                           delegationIdentity) ;;
            assign_location_href url)
           (fun error => renderError (formatError "delegation retrieval failed" error))
     | LoginOnError error =>
         renderError
           (formatError "authentication rejected"
              (OtherValue (if truthy_opt error
                           then match error with Some s => s | None => EmptyString end
                           else "Unknown error")))
     end)
    (fun error => renderError (formatError "login process failed" error)).

Definition main (env : Env) : Dom unit :=
  try_catch
    (parsed <- parseParams env ;;
     authClient <- lift (AuthClient_create env (identity parsed)) ;;
     addEventListener_click
       {| l_redirectUri := redirectUri parsed;
          l_iiUri := iiUri parsed;
          l_authClient := authClient |})
    (fun error => renderError (formatError "initialization failed" error)).

(** A press of the login button runs every registered listener. *)
Fixpoint dispatch (env : Env) (ls : list Listener) : Dom unit :=
  match ls with
  | [] => ret tt
  | l :: rest => onClick env l ;; dispatch env rest
  end.

Definition click (env : Env) : Dom unit :=
  fun p =>
    match loginButton p with
    | None => (inr tt, p)
    | Some ls => dispatch env ls p
    end.

(** Page load ([DOMContentLoaded] runs [main]) followed by one press of
    the login button. *)
Definition handoff (env : Env) (p : Page) : Page :=
  snd (click env (snd (main env p))).

(** The text the user sees in the [#error] paragraph, if any. *)
Definition visible_error (p : Page) : option string :=
  match errorElement p with
  | Some el =>
      if String.eqb (display el) "block" && truthy (textContent el)
      then Some (textContent el) else None
  | None => None
  end.

(** The outcome of [parseParams] when its guard fires: the message is
    rendered and the error thrown. *)
Definition missing_outcome (p : Page) : (Unknown + ParsedParams) * Page :=
  (inl (ErrorObject MissingParameter), snd (renderError (message MissingParameter) p)).

(** The query without any [name=...] pair. *)
Definition remove_param (name : string) (params : list (string * string))
    : list (string * string) :=
  filter (fun kv => negb (String.eqb (fst kv) name)) params.

Definition without (name : string) (p : Page) : Page :=
  {| searchParams := remove_param name (searchParams p);
     errorElement := errorElement p;
     loginButton := loginButton p;
     navigation := navigation p;
     console := console p |}.

(** A freshly loaded document: no click listener is registered yet. *)
Definition fresh_page (p : Page) : Prop :=
  loginButton p = None \/ loginButton p = Some [].

(** The ways a handoff fails, each with the message the script hands to
    [renderError] last. *)
Inductive handoff_failure (env : Env) (p : Page) : string -> Prop :=
| parse_fails : forall error p1,
    parseParams env p = (inl error, p1) ->
    handoff_failure env p (formatError "initialization failed" error)
| create_fails : forall parsed p1 error,
    parseParams env p = (inr parsed, p1) ->
    AuthClient_create env (identity parsed) = inl error ->
    handoff_failure env p (formatError "initialization failed" error)
| button_missing : forall parsed p1 authClient,
    parseParams env p = (inr parsed, p1) ->
    AuthClient_create env (identity parsed) = inr authClient ->
    loginButton p = None ->
    handoff_failure env p
      (formatError "initialization failed" (ErrorObject null_addEventListener))
| login_rejects : forall parsed p1 authClient error,
    parseParams env p = (inr parsed, p1) ->
    AuthClient_create env (identity parsed) = inr authClient ->
    loginButton p = Some [] ->
    AuthClient_login env authClient (iiUri parsed) = LoginRejects error ->
    handoff_failure env p (formatError "login process failed" error)
| provider_rejects : forall parsed p1 authClient error,
    parseParams env p = (inr parsed, p1) ->
    AuthClient_create env (identity parsed) = inr authClient ->
    loginButton p = Some [] ->
    AuthClient_login env authClient (iiUri parsed) = LoginOnError error ->
    handoff_failure env p
      (formatError "authentication rejected"
         (OtherValue (if truthy_opt error
                      then match error with Some s => s | None => EmptyString end
                      else "Unknown error")))
| delegation_fails : forall parsed p1 authClient who error,
    parseParams env p = (inr parsed, p1) ->
    AuthClient_create env (identity parsed) = inr authClient ->
    loginButton p = Some [] ->
    AuthClient_login env authClient (iiUri parsed) = LoginOnSuccess who ->
    buildRedirectURLWithDelegation env (redirectUri parsed) who = inl error ->
    handoff_failure env p (formatError "delegation retrieval failed" error).

End Handoff.

(* ===================================================================== *)
(** ** The encryption-key bootstrap ([initAesKey] of [RootLayoutNav]) *)
(* ===================================================================== *)

Module Bootstrap.
Import Js.

Definition Principal := Bytes.

(** The identity of [useAuth]: here only its principal is read. *)
Record Identity := mkIdentity { getPrincipal : Principal }.

(** The reply of [backend.asymmetric_keys]. A Candid [opt] arrives as an
    array of length zero or one, of which the code reads [?.[0]]. *)
Record KeysReply := mkKeysReply {
  public_key : Bytes;
  encrypted_aes_key : option Bytes;
  encrypted_key : option Bytes
}.

Record TransportKeyPair := mkTransportKeyPair {
  publicKeyBytes : Bytes;
  privateKeyHandle : Bytes
}.

(** The cipher primitives, a trusted capability behind a narrow
    interface; [None] is a failed operation. *)
Class Cipher := mkCipher {
  (** private key, encrypted AES key, encrypted key, remote public key,
      principal *)
  unwrap : Bytes -> Bytes -> Bytes -> Bytes -> Principal -> option Bytes;
  (** AES key, remote public key, principal *)
  wrap : Bytes -> Bytes -> Principal -> option Bytes
}.

(** The two key resources held behind [useAuth]. *)
Record AuthState := mkAuthState {
  aesRawKey : option Bytes;
  transportKey : option TransportKeyPair
}.

Definition Auth (A : Type) : Type := AuthState -> (Unknown + A) * AuthState.

(** Modelled from the spec: three errors of the taxonomy of section 7,
    raised by the key managers below; their code and message texts are not
    among the sources. *)
Definition NotGenerated : Error :=
  {| name := "NotGenerated"; message := "transport key pair not generated" |}.

Definition NotInitialized : Error :=
  {| name := "NotInitialized"; message := "AES key not initialized" |}.

Definition CryptoError : Error :=
  {| name := "CryptoError"; message := "cipher operation failed" |}.

(** The TransportKeyManager of section 4.1; its code, behind
    [hooks/useAuth], is not among the sources. *)
Module TransportKeyManager.

(** Modelled from the spec: [generate()] of the missing TransportKeyManager
    creates a new ephemeral key pair, discarding any prior one. *)
Definition generate (fresh : TransportKeyPair) : Auth unit :=
  fun a => (inr tt, {| aesRawKey := aesRawKey a; transportKey := Some fresh |}).

(** Modelled from the spec: [getPublicKey()] of the missing
    TransportKeyManager returns the current public key bytes and fails
    NotGenerated before [generate()]. *)
Definition getPublicKey : Auth Bytes :=
  fun a =>
    match transportKey a with
    | Some kp => (inr (publicKeyBytes kp), a)
    | None => (inl (ErrorObject NotGenerated), a)
    end.

(** Modelled from the spec: [decrypt(ciphertext)] of the missing
    TransportKeyManager unwraps symmetric key material with the private
    key and fails CryptoError on tamper or key mismatch. *)
Definition decrypt `{Cipher} (encryptedAesKey encryptedKey publicKey : Bytes)
    (principal : Principal) : Auth Bytes :=
  fun a =>
    match transportKey a with
    | None => (inl (ErrorObject NotGenerated), a)
    | Some kp =>
        match unwrap (privateKeyHandle kp) encryptedAesKey encryptedKey
                     publicKey principal with
        | Some raw => (inr raw, a)
        | None => (inl (ErrorObject CryptoError), a)
        end
    end.

End TransportKeyManager.

(** The AesKeyStore of section 4.2; its code, behind [hooks/useAuth], is
    not among the sources. *)
Module AesKeyStore.

(** Modelled from the spec: [generate()] of the missing AesKeyStore creates
    a new random symmetric key, overwriting any existing one. *)
Definition generate (fresh : Bytes) : Auth unit :=
  fun a => (inr tt, {| aesRawKey := Some fresh; transportKey := transportKey a |}).

(** Modelled from the spec: [clear()] of the missing AesKeyStore wipes the
    in-memory key. *)
Definition clear : Auth unit :=
  fun a => (inr tt, {| aesRawKey := None; transportKey := transportKey a |}).

(** Modelled from the spec: [getRaw()] of the missing AesKeyStore returns
    the current key or fails NotInitialized. *)
Definition getRaw : Auth Bytes :=
  fun a =>
    match aesRawKey a with
    | Some raw => (inr raw, a)
    | None => (inl (ErrorObject NotInitialized), a)
    end.

(** Modelled from the spec: [setFromWrapped(wrappedBytes)] of the missing
    AesKeyStore delegates to [TransportKeyManager.decrypt] and stores the
    result. *)
Definition setFromWrapped `{Cipher} (encryptedAesKey encryptedKey publicKey : Bytes)
    (principal : Principal) : Auth unit :=
  fun a =>
    match TransportKeyManager.decrypt encryptedAesKey encryptedKey
            publicKey principal a with
    | (inr raw, a') =>
        (inr tt, {| aesRawKey := Some raw; transportKey := transportKey a' |})
    | (inl e, a') => (inl e, a')
    end.

(** Modelled from the spec: [encryptForRemote(targetPublicKey)] of the
    missing AesKeyStore encrypts the current key under a remote public key
    and returns the ciphertext. *)
Definition encryptForRemote `{Cipher} (targetPublicKey : Bytes)
    (principal : Principal) : Auth Bytes :=
  fun a =>
    match getRaw a with
    | (inr raw, a') =>
        match wrap raw targetPublicKey principal with
        | Some ciphertext => (inr ciphertext, a')
        | None => (inl (ErrorObject CryptoError), a')
        end
    | (inl e, a') => (inl e, a')
    end.

End AesKeyStore.

(** A call received by the remote key-exchange collaborator. *)
Inductive RemoteCall :=
| Call_asymmetric_keys (transportPublicKey : Bytes)
| Call_asymmetric_save_encrypted_aes_key (payload : Bytes).

(** What one bootstrap attempt draws from outside: fresh randomness and
    the replies of the backend actor made by [createBackend(identity)]. *)
Record World := mkWorld {
  freshAesKey : Bytes;
  freshTransportKey : TransportKeyPair;
  asymmetric_keys : Identity -> Bytes -> Unknown + KeysReply;
  asymmetric_save_encrypted_aes_key : Identity -> Bytes -> Unknown + unit
}.

(** The five functions [initAesKey] takes from [useAuth], whose code is
    not among the sources: each is the operation of sections 4.1 and 4.2
    that carries out its step of the algorithm of section 4.4. *)

(** Modelled from the spec: [generateAesKey] of the missing [useAuth] hook,
    the local generation of the NoIdentity path. *)
Definition generateAesKey (w : World) : Auth unit :=
  AesKeyStore.generate (freshAesKey w).

(** Modelled from the spec: [clearAesRawKey] of the missing [useAuth] hook,
    step 1 of the HasIdentity algorithm (clear any existing symmetric
    key). *)
Definition clearAesRawKey : Auth unit := AesKeyStore.clear.

(** Modelled from the spec: [getTransportPublicKey] of the missing
    [useAuth] hook, step 2 of the HasIdentity algorithm (generate a fresh
    transport key pair; obtain its public key). *)
Definition getTransportPublicKey (w : World) : Auth Bytes :=
  fun a =>
    let '(_, a') := TransportKeyManager.generate (freshTransportKey w) a in
    TransportKeyManager.getPublicKey a'.

(** Modelled from the spec: [decryptExistingAesKey] of the missing
    [useAuth] hook, the first half of step 4 (decrypt, store result). *)
Definition decryptExistingAesKey `{Cipher}
    (encryptedAesKey encryptedKey publicKey : Bytes) (principal : Principal)
    : Auth unit :=
  AesKeyStore.setFromWrapped encryptedAesKey encryptedKey publicKey principal.

(** Modelled from the spec: [generateAndEncryptAesKey] of the missing
    [useAuth] hook, the second half of step 4 (generate a new symmetric
    key, encrypt it under the collaborator-supplied public key). *)
Definition generateAndEncryptAesKey `{Cipher} (w : World)
    (publicKey : Bytes) (principal : Principal) : Auth Bytes :=
  fun a =>
    let '(_, a') := AesKeyStore.generate (freshAesKey w) a in
    AesKeyStore.encryptForRemote publicKey principal a'.

(** The state [initAesKey] works on: the React state and refs of
    [RootLayoutNav], the key resources of [useAuth], the calls the remote
    collaborator has received, and the console. *)
Record State := mkState {
  initializationStatus : string;
  isLoading : bool;
  error : option Error;
  initializationCompleted : bool;
  initializationAttempted : bool;
  auth : AuthState;
  remoteCalls : list RemoteCall;
  console : list string
}.

Definition setInitializationStatus (text : string) (s : State) : State :=
  mkState text (isLoading s) (error s) (initializationCompleted s)
          (initializationAttempted s) (auth s) (remoteCalls s) (console s).

Definition setIsLoading (b : bool) (s : State) : State :=
  mkState (initializationStatus s) b (error s) (initializationCompleted s)
          (initializationAttempted s) (auth s) (remoteCalls s) (console s).

Definition setError (e : option Error) (s : State) : State :=
  mkState (initializationStatus s) (isLoading s) e (initializationCompleted s)
          (initializationAttempted s) (auth s) (remoteCalls s) (console s).

Definition set_initializationCompleted (b : bool) (s : State) : State :=
  mkState (initializationStatus s) (isLoading s) (error s) b
          (initializationAttempted s) (auth s) (remoteCalls s) (console s).

Definition set_initializationAttempted (b : bool) (s : State) : State :=
  mkState (initializationStatus s) (isLoading s) (error s)
          (initializationCompleted s) b (auth s) (remoteCalls s) (console s).

Definition set_auth (a : AuthState) (s : State) : State :=
  mkState (initializationStatus s) (isLoading s) (error s)
          (initializationCompleted s) (initializationAttempted s) a
          (remoteCalls s) (console s).

(** The request of a backend call leaves when the call is made. *)
Definition send (c : RemoteCall) (s : State) : State :=
  mkState (initializationStatus s) (isLoading s) (error s)
          (initializationCompleted s) (initializationAttempted s) (auth s)
          (remoteCalls s ++ [c])%list (console s).

Definition console_log (line : string) (s : State) : State :=
  mkState (initializationStatus s) (isLoading s) (error s)
          (initializationCompleted s) (initializationAttempted s) (auth s)
          (remoteCalls s) (console s ++ [line])%list.

(** The [await] at which a call of [initAesKey] is suspended, with the
    variables its continuation still reads. *)
Inductive Pending :=
| AwaitGenerateAesKey
| AwaitAsymmetricKeys (identity : Identity) (transportPublicKey : Bytes)
| AwaitDecryptExistingAesKey (encryptedAesKey encryptedKey publicKey : Bytes)
                             (principal : Principal)
| AwaitGenerateAndEncryptAesKey (identity : Identity) (publicKey : Bytes)
                                (principal : Principal)
| AwaitSaveEncryptedAesKey (identity : Identity) (newEncryptedAesKey : Bytes).

(** The [catch] block followed by the [finally] block. *)
Definition catch_finally (err : Unknown) (s : State) : State :=
  let s := console_log ("Failed to initialize AES key: " ++ String_of err) s in
  let s := setInitializationStatus
             ("Failed to initialize AES key: " ++ String_of err) s in
  let s := setError (Some (as_Error err)) s in
  setIsLoading false s.

(** The last two statements of the [try] block followed by [finally]. *)
Definition complete_finally (s : State) : State :=
  let s := setInitializationStatus "AES key initialization completed" s in
  let s := set_initializationCompleted true s in
  setIsLoading false s.

(** A call of [initAesKey], up to its first [await] (or its return).
    [useCallback] makes the callback at a render, with [identity] and
    [isLoading] among its dependencies: inside the body both are the
    constants of that render, [identity] and [isLoading_at_render], and stay
    what they were however the state has changed by the time of the call.
    The setters and refs act on the state [s] of the time of the call. The
    backend actor of [createBackend(identity)] is the one whose replies [w]
    holds. *)
Definition initAesKey_closure (w : World) (identity : option Identity)
    (isLoading_at_render : bool) (s : State) : State * option Pending :=
  if isLoading_at_render then (s, None)
  else
    let s := setError None s in
    let s := setIsLoading true s in
    let s := set_initializationAttempted true s in
    match identity with
    | None =>
        let s := console_log "No identity found, generating new AES key" s in
        let s := setInitializationStatus "Generating new AES key..." s in
        (s, Some AwaitGenerateAesKey)
    | Some identity =>
        let s := set_auth (snd (clearAesRawKey (auth s))) s in
        let s := setInitializationStatus "Fetching keys from backend..." s in
        match getTransportPublicKey w (auth s) with
        | (inl err, a) => (catch_finally err (set_auth a s), None)
        | (inr transportPublicKey, a) =>
            let s := set_auth a s in
            let s := send (Call_asymmetric_keys transportPublicKey) s in
            (s, Some (AwaitAsymmetricKeys identity transportPublicKey))
        end
    end.

(** A call, in the state [s], of the callback that the render of [s]
    itself made: what it captured is the [isLoading] of [s]. *)
Definition initAesKey_call (w : World) (identity : option Identity) (s : State)
    : State * option Pending :=
  initAesKey_closure w identity (isLoading s) s.

(** The continuation of a suspended call, from the settling of the
    awaited promise to the next [await] (or the return). *)
Definition initAesKey_resume `{Cipher} (w : World) (p : Pending) (s : State)
    : State * option Pending :=
  match p with
  | AwaitGenerateAesKey =>
      match generateAesKey w (auth s) with
      | (inl err, a) => (catch_finally err (set_auth a s), None)
      | (inr _, a) =>
          let s := set_auth a s in
          let s := setInitializationStatus "AES key generated" s in
          let s := set_initializationCompleted true s in
          (setIsLoading false s, None)
      end
  | AwaitAsymmetricKeys identity transportPublicKey =>
      match asymmetric_keys w identity transportPublicKey with
      | inl err => (catch_finally err s, None)
      | inr keysReply =>
          let publicKey := public_key keysReply in
          let encryptedAesKey := encrypted_aes_key keysReply in
          let encryptedKey := encrypted_key keysReply in
          let principal := getPrincipal identity in
          match encryptedAesKey, encryptedKey with
          | Some encryptedAesKey, Some encryptedKey =>
              let s := console_log "Decrypting existing AES key" s in
              let s := setInitializationStatus "Decrypting existing AES key..." s in
              (s, Some (AwaitDecryptExistingAesKey encryptedAesKey encryptedKey
                          publicKey principal))
          | _, _ =>
              let s := console_log "Generating and encrypting new AES key" s in
              let s := setInitializationStatus
                         "Generating and encrypting new AES key..." s in
              (s, Some (AwaitGenerateAndEncryptAesKey identity publicKey principal))
          end
      end
  | AwaitDecryptExistingAesKey encryptedAesKey encryptedKey publicKey principal =>
      match decryptExistingAesKey encryptedAesKey encryptedKey publicKey
              principal (auth s) with
      | (inl err, a) => (catch_finally err (set_auth a s), None)
      | (inr _, a) => (complete_finally (set_auth a s), None)
      end
  | AwaitGenerateAndEncryptAesKey identity publicKey principal =>
      match generateAndEncryptAesKey w publicKey principal (auth s) with
      | (inl err, a) => (catch_finally err (set_auth a s), None)
      | (inr newEncryptedAesKey, a) =>
          let s := set_auth a s in
          let s := console_log "Saving new encrypted AES key" s in
          let s := setInitializationStatus "Saving encrypted AES key..." s in
          let s := send (Call_asymmetric_save_encrypted_aes_key newEncryptedAesKey) s in
          (s, Some (AwaitSaveEncryptedAesKey identity newEncryptedAesKey))
      end
  | AwaitSaveEncryptedAesKey identity newEncryptedAesKey =>
      match asymmetric_save_encrypted_aes_key w identity newEncryptedAesKey with
      | inl err => (catch_finally err s, None)
      | inr _ => (complete_finally s, None)
      end
  end.

(** Resume a suspended call at most [fuel] times. *)
Fixpoint settle `{Cipher} (w : World) (fuel : nat) (c : State * option Pending)
    : State * option Pending :=
  match fuel, c with
  | S fuel', (s, Some p) => settle w fuel' (initAesKey_resume w p s)
  | _, _ => c
  end.

(** One whole bootstrap attempt: no path has more than three awaits. *)
Definition initAesKey `{Cipher} (w : World) (identity : option Identity)
    (s : State) : State * option Pending :=
  settle w 3 (initAesKey_call w identity s).

(** The status the user interface derives from the state: the loading
    screen, the error screen, or the application. *)
Inductive BootstrapStatus :=
| NotStarted
| InProgress (stage : string)
| Completed
| Failed (err : Error) (stage : string).

Definition status (s : State) : BootstrapStatus :=
  if isLoading s then InProgress (initializationStatus s)
  else
    match error s with
    | Some e => Failed e (initializationStatus s)
    | None => if initializationCompleted s then Completed else NotStarted
    end.

Fixpoint count_calls (f : RemoteCall -> bool) (l : list RemoteCall) : nat :=
  match l with
  | [] => 0
  | c :: rest => (if f c then 1 else 0) + count_calls f rest
  end.

Definition is_fetchKeys (c : RemoteCall) : bool :=
  match c with Call_asymmetric_keys _ => true | _ => false end.

Definition is_saveEncryptedKey (c : RemoteCall) : bool :=
  match c with Call_asymmetric_save_encrypted_aes_key _ => true | _ => false end.

Definition fetchKeys_calls (s : State) : nat :=
  count_calls is_fetchKeys (remoteCalls s).

Definition saveEncryptedKey_calls (s : State) : nat :=
  count_calls is_saveEncryptedKey (remoteCalls s).

(** The state in which the request to the backend leaves: what
    [initAesKey_call] has done to [s] by then, when an identity is present. *)
Definition at_fetch (w : World) (s : State) : State :=
  setInitializationStatus "Fetching keys from backend..."
    (set_auth {| aesRawKey := None; transportKey := Some (freshTransportKey w) |}
       (set_initializationAttempted true (setIsLoading true (setError None s)))).

(** The state in which [decryptExistingAesKey] is awaited. *)
Definition at_decrypt (w : World) (s : State) : State :=
  setInitializationStatus "Decrypting existing AES key..."
    (console_log "Decrypting existing AES key"
       (send (Call_asymmetric_keys (publicKeyBytes (freshTransportKey w)))
          (at_fetch w s))).

(** The state in which [generateAndEncryptAesKey] has run. *)
Definition at_generated (w : World) (s : State) : State :=
  set_auth {| aesRawKey := Some (freshAesKey w);
              transportKey := Some (freshTransportKey w) |}
    (setInitializationStatus "Generating and encrypting new AES key..."
       (console_log "Generating and encrypting new AES key"
          (send (Call_asymmetric_keys (publicKeyBytes (freshTransportKey w)))
             (at_fetch w s)))).

(** The state in which the save request leaves. *)
Definition at_save (w : World) (payload : Bytes) (s : State) : State :=
  send (Call_asymmetric_save_encrypted_aes_key payload)
    (setInitializationStatus "Saving encrypted AES key..."
       (console_log "Saving new encrypted AES key" (at_generated w s))).

(** The status text on screen while a call is suspended at each [await]. *)
Definition stage_text (p : Pending) : string :=
  match p with
  | AwaitGenerateAesKey => "Generating new AES key..."
  | AwaitAsymmetricKeys _ _ => "Fetching keys from backend..."
  | AwaitDecryptExistingAesKey _ _ _ _ => "Decrypting existing AES key..."
  | AwaitGenerateAndEncryptAesKey _ _ _ => "Generating and encrypting new AES key..."
  | AwaitSaveEncryptedAesKey _ _ => "Saving encrypted AES key..."
  end.

(** What holds of a state in which a call is suspended at [p]. *)
Definition suspended_at (p : Pending) (s : State) : Prop :=
  isLoading s = true /\ error s = None /\ initializationAttempted s = true
  /\ initializationStatus s = stage_text p.

(** Whether an optional field of the reply is present, and whether exactly
    one of the two wrapped fields is. *)
Definition present {A : Type} (field : option A) : bool :=
  match field with
  | Some _ => true
  | None => false
  end.

Definition exactly_one_present (reply : KeysReply) : bool :=
  xorb (present (encrypted_aes_key reply)) (present (encrypted_key reply)).

End Bootstrap.

(* ===================================================================== *)
(** ** Concrete scenarios *)
(* ===================================================================== *)

Module Scenario.
Import Js.

(** *** Landing page *)

Definition chain0 : Handoff.DelegationChain :=
  {| Handoff.delegations :=
       [ {| Handoff.delegation :=
              {| Handoff.pubkey := [x01; x02];
                 Handoff.expiration := 1700;
                 Handoff.targets := None |};
            Handoff.signature := [xaa] |} ];
     Handoff.publicKey := [x03] |}.

(** The double quote, and a JSON text that contains it. *)
Definition dq : string := String (ascii_of_nat 34) EmptyString.

Definition json0 : string :=
  "{" ++ dq ++ "publicKey" ++ dq ++ ":" ++ dq ++ "03" ++ dq ++ "}".

(** What [parseParams] returns on [page_ok] below. *)
Definition parsed_ok : Handoff.ParsedParams :=
  {| Handoff.redirectUri := "https://app.example/cb";
     Handoff.identity := Handoff.PublicKeyOnlyIdentity [x01; x02];
     Handoff.iiUri := "https://id.example" |}.

(** An environment where the key decodes and the provider answers with
    [outcome]. *)
Definition env_with (outcome : Handoff.LoginOutcome) : Handoff.Env :=
  {| Handoff.fromDer_fromHex := fun _ => inr [x01; x02];
     Handoff.AuthClient_create := fun i => inr (Handoff.mkAuthClient i);
     Handoff.AuthClient_login := fun _ _ => outcome;
     Handoff.JSON_stringify_toJSON := fun _ => json0 |}.

Definition env_ok : Handoff.Env :=
  env_with (Handoff.LoginOnSuccess (Handoff.WithDelegation chain0)).


Definition page_with (params : list (string * string))
    (err : option Handoff.ErrorElement) : Handoff.Page :=
  {| Handoff.searchParams := params;
     Handoff.errorElement := err;
     Handoff.loginButton := Some [];
     Handoff.navigation := None;
     Handoff.console := [] |}.

Definition hidden : Handoff.ErrorElement :=
  {| Handoff.textContent := EmptyString; Handoff.display := "none" |}.

Definition params_ok : list (string * string) :=
  [ ("redirect_uri", "https://app.example/cb");
    ("pubkey", "0102");
    ("ii_uri", "https://id.example") ].

Definition page_ok : Handoff.Page := page_with params_ok (Some hidden).

(** [pubkey] is absent. *)
Definition page_no_pubkey : Handoff.Page :=
  page_with [ ("redirect_uri", "https://app.example/cb");
              ("ii_uri", "https://id.example") ] (Some hidden).

(** [ii_uri=] is present with an empty value. *)
Definition page_empty_ii_uri : Handoff.Page :=
  page_with [ ("redirect_uri", "https://app.example/cb");
              ("pubkey", "0102");
              ("ii_uri", EmptyString) ] (Some hidden).

(** A document without the [#error] paragraph, opened without a query. *)
Definition page_no_error_element : Handoff.Page := page_with [] None.

(** *** Bootstrap *)

Definition bytes_eqb (a b : Bytes) : bool :=
  if list_eq_dec Byte.byte_eq_dec a b then true else false.

(** A toy cipher: a wrapped key opens only with the matching private
    key; wrapping prefixes the target public key. *)
Definition toy : Bootstrap.Cipher :=
  {| Bootstrap.unwrap := fun priv encryptedAesKey encryptedKey _ _ =>
       if bytes_eqb priv encryptedKey then Some encryptedAesKey else None;
     Bootstrap.wrap := fun raw pk _ => Some (pk ++ raw)%list |}.

Definition alice : Bootstrap.Identity := {| Bootstrap.getPrincipal := [x0a] |}.

Definition transport0 : Bootstrap.TransportKeyPair :=
  {| Bootstrap.publicKeyBytes := [x10]; Bootstrap.privateKeyHandle := [x11] |}.

Definition world_with (reply : Unknown + Bootstrap.KeysReply) : Bootstrap.World :=
  {| Bootstrap.freshAesKey := [x42; x43];
     Bootstrap.freshTransportKey := transport0;
     Bootstrap.asymmetric_keys := fun _ _ => reply;
     Bootstrap.asymmetric_save_encrypted_aes_key := fun _ _ => inr tt |}.

(** Both wrapped fields present and matching the transport key. *)
Definition reply_both : Bootstrap.KeysReply :=
  {| Bootstrap.public_key := [x20];
     Bootstrap.encrypted_aes_key := Some [x77; x78];
     Bootstrap.encrypted_key := Some [x11] |}.

(** Only [encrypted_aes_key] present. *)
Definition reply_partial : Bootstrap.KeysReply :=
  {| Bootstrap.public_key := [x20];
     Bootstrap.encrypted_aes_key := Some [x77; x78];
     Bootstrap.encrypted_key := None |}.

Definition world_both : Bootstrap.World := world_with (inr reply_both).
Definition world_partial : Bootstrap.World := world_with (inr reply_partial).
Definition world_offline : Bootstrap.World :=
  world_with (inl (ErrorObject (new_Error "Network request failed"))).

(** The state at startup, with a key left over from an earlier session. *)
Definition startup : Bootstrap.State :=
  {| Bootstrap.initializationStatus := EmptyString;
     Bootstrap.isLoading := false;
     Bootstrap.error := None;
     Bootstrap.initializationCompleted := false;
     Bootstrap.initializationAttempted := false;
     Bootstrap.auth := {| Bootstrap.aesRawKey := Some [x99];
                          Bootstrap.transportKey := None |};
     Bootstrap.remoteCalls := [];
     Bootstrap.console := [] |}.

(** The state while the first attempt waits for the backend. *)
Definition waiting : Bootstrap.State :=
  fst (Bootstrap.initAesKey_call world_both (Some alice) startup).

End Scenario.

(* ===================================================================== *)
(** ** The rest of [RootLayoutNav]: effect, handlers and screens *)
(* ===================================================================== *)

Module Layout.
Import Js Bootstrap.

(** The auto-initialize effect, run after the render of [s] with the given
    [isReady]: the [initAesKey] it calls is the callback of that render;
    [initializationAttempted] is a ref, read when the effect runs. *)
Definition autoInitialize (w : World) (isReady : bool)
    (identity : option Identity) (s : State) : State * option Pending :=
  if negb isReady || initializationAttempted s then (s, None)
  else initAesKey_call w identity s.

(** [handleRetry], pressed on the screen rendered from [s]: it calls the
    [initAesKey] of that render. *)
Definition handleRetry (w : World) (identity : option Identity) (s : State)
    : State * option Pending :=
  initAesKey_call w identity s.

(** [handleContinueWithLocalKey], up to its [await]. *)
Definition handleContinueWithLocalKey_call (s : State) : State :=
  let s := setError None s in
  let s := setInitializationStatus "Generating local AES key..." s in
  setIsLoading true s.

(** [handleContinueWithLocalKey], from the settling of the awaited
    [generateAesKey()] to its return: [outcome] is what the awaited call
    gave (its result or the value it rejected with) and the key resources
    it left. *)
Definition handleContinueWithLocalKey_settle
    (outcome : (Unknown + unit) * AuthState) (s : State) : State :=
  match outcome with
  | (inr _, a) =>
      let s := set_auth a s in
      let s := setInitializationStatus "Local AES key generated" s in
      let s := set_initializationCompleted true s in
      setIsLoading false s
  | (inl err, a) =>
      let s := set_auth a s in
      let s := console_log ("Failed to generate local AES key: " ++ String_of err) s in
      let s := setInitializationStatus
                 ("Failed to generate local AES key: " ++ String_of err) s in
      let s := setError (Some (as_Error err)) s in
      setIsLoading false s
  end.

(** The same, with the awaited call carried out by [generateAesKey]. *)
Definition handleContinueWithLocalKey_resume (w : World) (s : State) : State :=
  handleContinueWithLocalKey_settle (generateAesKey w (auth s)) s.

Definition handleContinueWithLocalKey (w : World) (s : State) : State :=
  handleContinueWithLocalKey_resume w (handleContinueWithLocalKey_call s).

(** What [RootLayoutNav] returns: a bare spinner, the loading screen with
    the status text, the error screen with the error message, the status
    text and the two buttons, or the application. *)
Inductive Screen :=
| Spinner
| Preparing (statusText : string)
| InitializationError (errorText statusText : string)
| Application.

Definition render (isReady : bool) (s : State) : Screen :=
  if negb isReady then Spinner
  else if isLoading s then Preparing (initializationStatus s)
  else
    match error s with
    | Some e => InitializationError (message e) (initializationStatus s)
    | None => Application
    end.

(** The calls an attempt may add to those the remote collaborator has
    received. *)
Inductive attempt_calls (transportPublicKey : Bytes) : list RemoteCall -> Prop :=
| calls_none : attempt_calls transportPublicKey []
| calls_fetch :
    attempt_calls transportPublicKey [Call_asymmetric_keys transportPublicKey]
| calls_fetch_save : forall payload,
    attempt_calls transportPublicKey
      [Call_asymmetric_keys transportPublicKey;
       Call_asymmetric_save_encrypted_aes_key payload].

End Layout.

(* ===================================================================== *)
(** ** [isLocalhostSubdomainSupported] *)
(* ===================================================================== *)

Module Localhost.

(** [s.startsWith(p)] *)
Fixpoint startsWith (p s : string) : bool :=
  match p, s with
  | EmptyString, _ => true
  | String _ _, EmptyString => false
  | String a p', String b s' => Ascii.eqb a b && startsWith p' s'
  end.

(** [s.includes(sub)] *)
Fixpoint includes (sub s : string) : bool :=
  startsWith sub s
  || match s with
     | EmptyString => false
     | String _ rest => includes sub rest
     end.

(** [toLowerCase] on one code unit: only [A-Z] change. On the multi-byte
    units of other letters the real function may act, but never so as to
    produce or remove one of the letters of ["chrome"]. *)
Definition lower (c : ascii) : ascii :=
  let n := nat_of_ascii c in
  if ((65 <=? n) && (n <=? 90))%nat then ascii_of_nat (n + 32) else c.

Fixpoint toLowerCase (s : string) : string :=
  match s with
  | EmptyString => EmptyString
  | String c rest => String (lower c) (toLowerCase rest)
  end.

(** How the global [window] is bound where the function runs: not
    declared at all, or declared, and then each of the chains
    [window?.location?.origin] and [window?.navigator?.userAgent] gives a
    string or [undefined] ([None]). *)
Inductive Window :=
| Undeclared
| Declared (location_origin : option string) (navigator_userAgent : option string).

(** What the function reads: [Platform.OS] and the global [window]. *)
Record Runtime := mkRuntime {
  Platform_OS : string;
  window : Window
}.

(** What reading an undeclared identifier throws; optional chaining does
    not guard the identifier itself. The message is the one of V8. *)
Definition ReferenceError : Js.Error :=
  {| Js.name := "ReferenceError"; Js.message := "window is not defined" |}.

Definition isLocalhostSubdomainSupported (r : Runtime) : Js.Unknown + bool :=
  if String.eqb (Platform_OS r) "ios" || String.eqb (Platform_OS r) "android"
  then inr false
  else
    match window r with
    | Undeclared => inl (Js.ErrorObject ReferenceError)
    | Declared location_origin navigator_userAgent =>
        if negb match location_origin with
                | Some origin => includes "localhost" origin
                | None => false
                end
        then inr false
        else
          let userAgent :=
            match navigator_userAgent with
            | Some ua =>
                if Js.truthy (toLowerCase ua) then toLowerCase ua else EmptyString
            | None => EmptyString
            end in
          if includes "chrome" userAgent then inr true else inr false
    end.

End Localhost.

(* ===================================================================== *)
(** ** [handlePress] of the [LoggedOut] component *)
(* ===================================================================== *)

Module LoggedOut.
Import Js.

(** The component state: [busy] and [error]. *)
Record State := mkState {
  busy : bool;
  error : option string
}.

(** What the promise of [onLogin()] settles to. A rejection carries any
    value: [null] or [undefined], or a value whose [message] property is a
    string or is undefined. *)
Inductive Settled :=
| Resolved
| RejectedNullish
| Rejected (message : option string).

(** The synchronous part of [handlePress]. *)
Definition handlePress_call (s : State) : State :=
  {| busy := true; error := None |}.

(** The [catch] and [finally] callbacks. Reading [message] of [null] or
    [undefined] throws inside [catch], so [setError] is not reached, and
    [finally] still runs. A string concatenated with [undefined] reads
    ["undefined"]. *)
Definition handlePress_settle (outcome : Settled) (s : State) : State :=
  let s :=
    match outcome with
    | Resolved => s
    | RejectedNullish => s
    | Rejected m =>
        {| busy := busy s;
           error := Some ("Error occurred during login: " ++
                          match m with Some text => text | None => "undefined" end) |}
    end in
  {| busy := false; error := error s |}.

(** The button is [disabled] while [busy]: a press reaches [handlePress]
    only otherwise. *)
Definition press (s : State) : State :=
  if busy s then s else handlePress_call s.

(** The red text under the button: [error && <Text>]. *)
Definition shown_error (s : State) : option string :=
  match error s with
  | Some text => if truthy text then Some text else None
  | None => None
  end.

(** A run of presses, each settled before the next: the outcome of the
    login behind each press is given. *)
Definition session (outcomes : list Settled) (s : State) : State :=
  fold_left (fun s outcome => handlePress_settle outcome (press s)) outcomes s.

(** The error text a settled login leaves. *)
Definition error_of (outcome : Settled) : option string :=
  match outcome with
  | Resolved => None
  | RejectedNullish => None
  | Rejected m =>
      Some ("Error occurred during login: " ++
            match m with Some text => text | None => "undefined" end)
  end.

End LoggedOut.

(* ===================================================================== *)
(** ** More concrete scenarios *)
(* ===================================================================== *)

Module Cases.
Import Js.

(** An environment whose key decoder rejects every key. *)
Definition env_bad_key : Handoff.Env :=
  {| Handoff.fromDer_fromHex := fun _ => inl (ErrorObject (new_Error "Invalid DER"));
     Handoff.AuthClient_create := fun i => inr (Handoff.mkAuthClient i);
     Handoff.AuthClient_login := fun _ _ => Handoff.LoginOnError None;
     Handoff.JSON_stringify_toJSON := fun _ => Scenario.json0 |}.

(** The provider reports an error without a message. *)
Definition env_silent_error : Handoff.Env :=
  Scenario.env_with (Handoff.LoginOnError None).

Definition listener_ok : Handoff.Listener :=
  {| Handoff.l_redirectUri := "https://app.example/cb";
     Handoff.l_iiUri := "https://id.example";
     Handoff.l_authClient :=
       Handoff.mkAuthClient (Handoff.identity Scenario.parsed_ok) |}.

(** A page that still shows the error of an earlier attempt. *)
Definition page_with_error : Handoff.Page :=
  Scenario.page_with Scenario.params_ok
    (Some {| Handoff.textContent := "Internet Identity login process failed: x";
             Handoff.display := "block" |}).

(** The landing page opened with an extra parameter. *)
Definition page_extra_param : Handoff.Page :=
  Scenario.page_with (("utm_source", "mail") :: Scenario.params_ok)
    (Some Scenario.hidden).

(** The backend has nothing stored for the principal. *)
Definition reply_neither : Bootstrap.KeysReply :=
  {| Bootstrap.public_key := [x20];
     Bootstrap.encrypted_aes_key := None;
     Bootstrap.encrypted_key := None |}.

Definition world_neither : Bootstrap.World :=
  Scenario.world_with (inr reply_neither).

(** Both fields present, but wrapped for another transport key. *)
Definition reply_foreign : Bootstrap.KeysReply :=
  {| Bootstrap.public_key := [x20];
     Bootstrap.encrypted_aes_key := Some [x77; x78];
     Bootstrap.encrypted_key := Some [x55] |}.

Definition world_foreign : Bootstrap.World :=
  Scenario.world_with (inr reply_foreign).

(** The state the error screen is rendered from after a failed fetch. *)
Definition failed : Bootstrap.State :=
  fst (@Bootstrap.initAesKey Scenario.toy Scenario.world_offline
         (Some Scenario.alice) Scenario.startup).

(** Chrome on a desktop, serving the app from a localhost subdomain. *)
Definition chrome_localhost : Localhost.Runtime :=
  {| Localhost.Platform_OS := "web";
     Localhost.window :=
       Localhost.Declared
         (Some "http://app.localhost:8081")
         (Some "Mozilla/5.0 (Macintosh) AppleWebKit/537.36 Chrome/120.0 Safari/537.36") |}.

(** A runtime other than a phone where no global [window] is declared. *)
Definition no_window : Localhost.Runtime :=
  {| Localhost.Platform_OS := "web"; Localhost.window := Localhost.Undeclared |}.

(** A phone, where no global [window] is declared either. *)
Definition phone : Localhost.Runtime :=
  {| Localhost.Platform_OS := "android"; Localhost.window := Localhost.Undeclared |}.

End Cases.

(* ===================================================================== *)
(** ** Properties of percent encoding *)
(* ===================================================================== *)

Section UriFacts.
Import Uri.

Lemma decode_encodeUnit (c : ascii) (rest : string) :
  decodeURIComponent (encodeUnit c ++ rest)
  = option_map (String c) (decodeURIComponent rest).
Proof.
  destruct c as [[] [] [] [] [] [] [] []]; reflexivity.
Qed.

Lemma decode_encode (s : string) :
  decodeURIComponent (encodeURIComponent s) = Some s.
Proof.
  induction s as [| c rest IH]; [reflexivity |].
  cbn [encodeURIComponent].
  rewrite decode_encodeUnit, IH. reflexivity.
Qed.

(** The encoded text consists of unreserved characters and [%] only, so
    no [&], [#], [=] or [?] can end or split the parameter it is put in. *)
Lemma encodeUnit_safe (c : ascii) :
  forallb safe_char (list_ascii_of_string (encodeUnit c)) = true.
Proof.
  destruct c as [[] [] [] [] [] [] [] []]; vm_compute; reflexivity.
Qed.

Lemma list_ascii_of_string_app (a b : string) :
  list_ascii_of_string (a ++ b)
  = (list_ascii_of_string a ++ list_ascii_of_string b)%list.
Proof.
  induction a as [| x a IHa]; [reflexivity |].
  cbn. now rewrite IHa.
Qed.

Lemma encodeURIComponent_safe (s : string) :
  forallb safe_char (list_ascii_of_string (encodeURIComponent s)) = true.
Proof.
  induction s as [| c rest IH]; [reflexivity |].
  cbn [encodeURIComponent].
  rewrite list_ascii_of_string_app, forallb_app, encodeUnit_safe, IH.
  reflexivity.
Qed.

End UriFacts.

(* ===================================================================== *)
(** ** Properties of the landing page *)
(* ===================================================================== *)

Section HandoffFacts.
Import Js Handoff.

Variable env : Env.

Lemma renderError_returns (msg : string) (p : Page) :
  fst (renderError msg p) = inr tt.
Proof.
  unfold renderError. destruct (errorElement p); reflexivity.
Qed.

Lemma renderError_frame (msg : string) (p : Page) :
  let p' := snd (renderError msg p) in
  navigation p' = navigation p /\ loginButton p' = loginButton p
  /\ searchParams p' = searchParams p.
Proof.
  unfold renderError. destruct (errorElement p) eqn:E; cbn; auto.
Qed.

Lemma renderError_element (msg : string) (p : Page) :
  errorElement (snd (renderError msg p))
  = match errorElement p with
    | Some _ => Some {| textContent := msg;
                        display := if truthy msg then "block" else "none" |}
    | None => None
    end.
Proof.
  unfold renderError. destruct (errorElement p) eqn:E; cbn; rewrite ?E; reflexivity.
Qed.

Lemma renderError_eta (msg : string) (p : Page) :
  renderError msg p = (inr tt, snd (renderError msg p)).
Proof.
  unfold renderError. destruct (errorElement p); reflexivity.
Qed.

Lemma formatError_truthy (prefix : string) (error : Unknown) :
  truthy (formatError prefix error) = true.
Proof. reflexivity. Qed.

(** A rendered, non-empty message is what the user sees. *)
Lemma renderError_visible (msg : string) (p : Page) (el : ErrorElement) :
  errorElement p = Some el -> truthy msg = true ->
  visible_error (snd (renderError msg p)) = Some msg.
Proof.
  intros Hel Hmsg. unfold visible_error.
  rewrite renderError_element, Hel. cbn. rewrite Hmsg. reflexivity.
Qed.

Lemma renderError_invisible (msg : string) (p : Page) :
  errorElement p = None -> visible_error (snd (renderError msg p)) = None.
Proof.
  intros Hel. unfold visible_error. rewrite renderError_element, Hel. reflexivity.
Qed.

Lemma parseParams_guard (p : Page) :
  negb (truthy_opt (get "redirect_uri" (searchParams p)))
  || negb (truthy_opt (get "pubkey" (searchParams p)))
  || negb (truthy_opt (get "ii_uri" (searchParams p))) = true ->
  parseParams env p = missing_outcome p.
Proof.
  intros Hguard. unfold parseParams, missing_outcome.
  assert (Hmiss : (renderError (message MissingParameter) ;;
                   throw (ErrorObject MissingParameter))%dom p
                  = ((inl (ErrorObject MissingParameter),
                      snd (renderError (message MissingParameter) p))
                     : (Unknown + ParsedParams) * Page)).
  { unfold bind. rewrite renderError_eta. reflexivity. }
  destruct (get "redirect_uri" (searchParams p)) as [r |];
    destruct (get "pubkey" (searchParams p)) as [k |];
    destruct (get "ii_uri" (searchParams p)) as [i |];
    try destruct r; try destruct k; try destruct i;
    cbn in Hguard |- *; try discriminate Hguard; exact Hmiss.
Qed.

(** A successful parse found the three parameters non-empty, decoded the
    key, and left the page alone. *)
Lemma parseParams_success (p p1 : Page) (parsed : ParsedParams) :
  parseParams env p = (inr parsed, p1) ->
  p1 = p
  /\ get "redirect_uri" (searchParams p) = Some (redirectUri parsed)
  /\ get "ii_uri" (searchParams p) = Some (iiUri parsed)
  /\ exists hex key,
       get "pubkey" (searchParams p) = Some hex
       /\ fromDer_fromHex env hex = inr key
       /\ identity parsed = PublicKeyOnlyIdentity key.
Proof.
  unfold parseParams.
  destruct (get "redirect_uri" (searchParams p)) as [r |];
    destruct (get "pubkey" (searchParams p)) as [k |];
    destruct (get "ii_uri" (searchParams p)) as [i |];
    try destruct r; try destruct k; try destruct i; cbn;
    unfold bind; try rewrite renderError_eta; cbn; try discriminate.
  unfold lift.
  destruct (fromDer_fromHex env _) as [e | key] eqn:Hkey; cbn; [discriminate |].
  intros Heq. injection Heq as <- <-. cbn.
  repeat split; eauto.
Qed.

(** A failed parse never navigates and keeps the page's elements. *)
Lemma parseParams_failure (p p1 : Page) (error : Unknown) :
  parseParams env p = (inl error, p1) ->
  p1 = p \/ p1 = snd (renderError (message MissingParameter) p).
Proof.
  unfold parseParams.
  destruct (get "redirect_uri" (searchParams p)) as [r |];
    destruct (get "pubkey" (searchParams p)) as [k |];
    destruct (get "ii_uri" (searchParams p)) as [i |];
    try destruct r; try destruct k; try destruct i; cbn;
    unfold bind; try rewrite renderError_eta; cbn;
    try (intros Heq; injection Heq as _ <-; now right).
  unfold lift.
  destruct (fromDer_fromHex env _) as [e | key]; cbn; [| discriminate].
  intros Heq. injection Heq as _ <-. now left.
Qed.

Lemma get_remove_param (name : string) (params : list (string * string)) :
  get name (remove_param name params) = None.
Proof.
  induction params as [| [k v] rest IH]; [reflexivity |].
  cbn. destruct (String.eqb k name) eqn:Hk; cbn; [exact IH |].
  rewrite Hk. exact IH.
Qed.

(** What one run of the click listener leaves behind, by outcome of the
    login. *)
Lemma onClick_page (l : Listener) (p : Page) :
  let p0 := snd (renderError EmptyString p) in
  snd (onClick env l p)
  = match AuthClient_login env (l_authClient l) (l_iiUri l) with
    | LoginRejects error =>
        snd (renderError (formatError "login process failed" error) p0)
    | LoginOnError error =>
        snd (renderError
               (formatError "authentication rejected"
                  (OtherValue (if truthy_opt error
                               then match error with Some s => s | None => EmptyString end
                               else "Unknown error"))) p0)
    | LoginOnSuccess who =>
        let p1 := snd (renderError EmptyString p0) in
        match buildRedirectURLWithDelegation env (l_redirectUri l) who with
        | inl error =>
            snd (renderError (formatError "delegation retrieval failed" error) p1)
        | inr url => snd (assign_location_href url p1)
        end
    end.
Proof.
  cbv zeta. unfold onClick, bind, try_catch.
  rewrite (renderError_eta EmptyString p).
  destruct (AuthClient_login env (l_authClient l) (l_iiUri l)) as [e | who | e].
  - unfold throw. reflexivity.
  - rewrite (renderError_eta EmptyString (snd (renderError EmptyString p))).
    unfold lift.
    destruct (buildRedirectURLWithDelegation env (l_redirectUri l) who) as [e | url].
    + rewrite renderError_eta. reflexivity.
    + reflexivity.
  - rewrite renderError_eta. reflexivity.
Qed.

(** [main] on its success path registers exactly one listener. *)
Lemma main_success (p p1 : Page) (parsed : ParsedParams) (authClient : AuthClient)
    (ls : list Listener) :
  parseParams env p = (inr parsed, p1) ->
  AuthClient_create env (identity parsed) = inr authClient ->
  loginButton p = Some ls ->
  main env p
  = (inr tt,
     {| searchParams := searchParams p;
        errorElement := errorElement p;
        loginButton :=
          Some (ls ++ [ {| l_redirectUri := redirectUri parsed;
                           l_iiUri := iiUri parsed;
                           l_authClient := authClient |} ])%list;
        navigation := navigation p;
        console := console p |}).
Proof.
  intros Hparse Hcreate Hbutton.
  destruct (parseParams_success _ _ _ Hparse) as [-> _].
  unfold main, try_catch, bind. rewrite Hparse.
  unfold lift. rewrite Hcreate.
  unfold addEventListener_click. rewrite Hbutton. reflexivity.
Qed.


End HandoffFacts.

Section HandoffClaims.
Import Js Handoff.

Lemma snd_bind_ret (m : Dom unit) (p : Page) :
  snd (bind m (fun _ => ret tt) p) = snd (m p).
Proof.
  unfold bind, ret. destruct (m p) as [[e | []] p']; reflexivity.
Qed.


(** The last [renderError] of a non-empty message decides what is seen. *)
Lemma rendered_last (msg : string) (p : Page) :
  truthy msg = true ->
  let p' := snd (renderError msg p) in
  navigation p' = navigation p
  /\ (errorElement p <> None -> visible_error p' = Some msg)
  /\ (errorElement p = None -> visible_error p' = None).
Proof.
  intros Hmsg. cbv zeta.
  destruct (renderError_frame msg p) as [Hn _].
  split; [exact Hn |]. split.
  - destruct (errorElement p) as [el |] eqn:Hel; [| congruence].
    intros _. now apply renderError_visible with el.
  - apply renderError_invisible.
Qed.

Lemma renderError_keeps_absence (msg : string) (p : Page) :
  errorElement (snd (renderError msg p)) = None <-> errorElement p = None.
Proof.
  rewrite renderError_element. destruct (errorElement p); split; congruence.
Qed.

(** C2: every sign request on the public-key-only identity that
    [parseParams] constructs fails with [SigningNotSupported], whatever the
    blob; no call returns a signature. The same holds of any identity made
    by the class constructor. *)
Theorem public_key_only_identity_never_signs
    (env : Env) (p p1 : Page) (parsed : ParsedParams) (blob : Bytes) :
  parseParams env p = (inr parsed, p1) ->
  sign (identity parsed) blob = inl (ErrorObject SigningNotSupported)
  /\ (forall sig : Signature, sign (identity parsed) blob <> inr sig)
  /\ (forall key : PublicKey,
        sign (PublicKeyOnlyIdentity key) blob = inl (ErrorObject SigningNotSupported)
        /\ getPublicKey (PublicKeyOnlyIdentity key) = key).
Proof.
  intros Hparse.
  destruct (parseParams_success env _ _ _ Hparse) as (_ & _ & _ & hex & key & _ & _ & ->).
  repeat split. cbn. discriminate.
Qed.

Lemma public_key_only_identity_never_signs_witness :
  sign (identity Scenario.parsed_ok) [xff] = inl (ErrorObject SigningNotSupported)
  /\ (forall sig : Signature, sign (identity Scenario.parsed_ok) [xff] <> inr sig)
  /\ (forall key : PublicKey,
        sign (PublicKeyOnlyIdentity key) [xff] = inl (ErrorObject SigningNotSupported)
        /\ getPublicKey (PublicKeyOnlyIdentity key) = key).
Proof.
  exact (public_key_only_identity_never_signs
           Scenario.env_ok Scenario.page_ok Scenario.page_ok Scenario.parsed_ok
           [xff] eq_refl).
Defined.

(** C8: when any of [redirect_uri], [pubkey], [ii_uri] is absent from the
    query, [parseParams] throws the MissingParameter error (after rendering
    its message) and returns no parsed parameters, hence no identity; the
    key decoder is not even consulted, so the outcome is the same under
    every environment. *)
Theorem parseParams_absent_parameter (env : Env) (p : Page) :
  get "redirect_uri" (searchParams p) = None
  \/ get "pubkey" (searchParams p) = None
  \/ get "ii_uri" (searchParams p) = None ->
  parseParams env p = missing_outcome p
  /\ fst (parseParams env p) = inl (ErrorObject MissingParameter)
  /\ (forall parsed p1, parseParams env p <> (inr parsed, p1))
  /\ (forall env', parseParams env' p = parseParams env p).
Proof.
  intros Habsent.
  assert (Hguard :
    negb (truthy_opt (get "redirect_uri" (searchParams p)))
    || negb (truthy_opt (get "pubkey" (searchParams p)))
    || negb (truthy_opt (get "ii_uri" (searchParams p))) = true).
  { destruct Habsent as [-> | [-> | ->]]; cbn;
      rewrite ?orb_true_r; reflexivity. }
  split; [now apply parseParams_guard |].
  split; [now rewrite parseParams_guard |].
  split.
  - intros parsed p1. rewrite parseParams_guard by exact Hguard. discriminate.
  - intros env'. now rewrite !parseParams_guard.
Qed.

Lemma parseParams_absent_parameter_witness :
  parseParams Scenario.env_ok Scenario.page_no_pubkey
  = missing_outcome Scenario.page_no_pubkey
  /\ fst (parseParams Scenario.env_ok Scenario.page_no_pubkey)
     = inl (ErrorObject MissingParameter)
  /\ (forall parsed p1,
        parseParams Scenario.env_ok Scenario.page_no_pubkey <> (inr parsed, p1))
  /\ (forall env',
        parseParams env' Scenario.page_no_pubkey
        = parseParams Scenario.env_ok Scenario.page_no_pubkey).
Proof.
  apply (parseParams_absent_parameter Scenario.env_ok Scenario.page_no_pubkey).
  right; left. reflexivity.
Defined.

(** C10: when one of the three parameters is present with an empty value,
    [parseParams] fails exactly as it does on the same page with that
    parameter removed: the MissingParameter error, its message rendered, no
    parsed parameters and no identity. *)
Theorem parseParams_empty_parameter (env : Env) (p : Page) (name : string) :
  In name ["redirect_uri"; "pubkey"; "ii_uri"] ->
  get name (searchParams p) = Some EmptyString ->
  parseParams env p = missing_outcome p
  /\ parseParams env (without name p) = missing_outcome (without name p)
  /\ fst (parseParams env p) = fst (parseParams env (without name p))
  /\ errorElement (snd (parseParams env p))
     = errorElement (snd (parseParams env (without name p)))
  /\ (forall parsed p1, parseParams env p <> (inr parsed, p1)).
Proof.
  intros Hname Hempty.
  assert (Hguard :
    negb (truthy_opt (get "redirect_uri" (searchParams p)))
    || negb (truthy_opt (get "pubkey" (searchParams p)))
    || negb (truthy_opt (get "ii_uri" (searchParams p))) = true).
  { cbn in Hname. destruct Hname as [<- | [<- | [<- | []]]];
      rewrite Hempty; cbn; rewrite ?orb_true_r; reflexivity. }
  assert (Habsent :
    negb (truthy_opt (get "redirect_uri" (searchParams (without name p))))
    || negb (truthy_opt (get "pubkey" (searchParams (without name p))))
    || negb (truthy_opt (get "ii_uri" (searchParams (without name p)))) = true).
  { cbn in Hname. destruct Hname as [<- | [<- | [<- | []]]];
      cbn [without searchParams]; rewrite get_remove_param; cbn;
      rewrite ?orb_true_r; reflexivity. }
  rewrite (parseParams_guard env p Hguard).
  rewrite (parseParams_guard env (without name p) Habsent).
  repeat split; try discriminate.
  unfold missing_outcome. cbn [snd]. rewrite !renderError_element. reflexivity.
Qed.

Lemma parseParams_empty_parameter_witness :
  parseParams Scenario.env_ok Scenario.page_empty_ii_uri
  = missing_outcome Scenario.page_empty_ii_uri
  /\ parseParams Scenario.env_ok (without "ii_uri" Scenario.page_empty_ii_uri)
     = missing_outcome (without "ii_uri" Scenario.page_empty_ii_uri)
  /\ fst (parseParams Scenario.env_ok Scenario.page_empty_ii_uri)
     = fst (parseParams Scenario.env_ok (without "ii_uri" Scenario.page_empty_ii_uri))
  /\ errorElement (snd (parseParams Scenario.env_ok Scenario.page_empty_ii_uri))
     = errorElement
         (snd (parseParams Scenario.env_ok (without "ii_uri" Scenario.page_empty_ii_uri)))
  /\ (forall parsed p1,
        parseParams Scenario.env_ok Scenario.page_empty_ii_uri <> (inr parsed, p1)).
Proof.
  apply (parseParams_empty_parameter Scenario.env_ok Scenario.page_empty_ii_uri "ii_uri").
  - simpl. right; right; left. reflexivity.
  - reflexivity.
Defined.

End HandoffClaims.

Section HandoffFlowClaims.
Import Js Handoff.

(** When every step succeeds, the page navigates to the URL built from the
    delegation. *)
Lemma handoff_navigates
    (env : Env) (p p1 : Page) (parsed : ParsedParams) (authClient : AuthClient)
    (who : IdentityObject) (url : string) :
  parseParams env p = (inr parsed, p1) ->
  AuthClient_create env (identity parsed) = inr authClient ->
  loginButton p = Some [] ->
  AuthClient_login env authClient (iiUri parsed) = LoginOnSuccess who ->
  buildRedirectURLWithDelegation env (redirectUri parsed) who = inr url ->
  navigation (handoff env p) = Some url.
Proof.
  intros Hparse Hcreate Hbutton Hlogin Hbuild.
  unfold handoff.
  rewrite (main_success env _ _ _ _ _ Hparse Hcreate Hbutton).
  cbn [snd click loginButton app dispatch].
  rewrite snd_bind_ret, onClick_page.
  cbn [l_authClient l_iiUri l_redirectUri]. rewrite Hlogin, Hbuild.
  reflexivity.
Qed.

(** Every handoff on a fresh page either fails in one of the listed ways or
    navigates. *)
Lemma handoff_fails_or_navigates (env : Env) (p : Page) :
  fresh_page p ->
  (exists msg, handoff_failure env p msg)
  \/ (exists url, navigation (handoff env p) = Some url).
Proof.
  intros Hfresh.
  destruct (parseParams env p) as [[e | parsed] p1] eqn:Hparse.
  { left. eexists. eapply parse_fails; eassumption. }
  destruct (AuthClient_create env (identity parsed)) as [e | authClient] eqn:Hcreate.
  { left. eexists. eapply create_fails; eassumption. }
  destruct Hfresh as [Hbutton | Hbutton].
  { left. eexists. eapply button_missing; eassumption. }
  destruct (AuthClient_login env authClient (iiUri parsed)) as [e | who | e] eqn:Hlogin.
  - left. eexists. eapply login_rejects; eassumption.
  - destruct (buildRedirectURLWithDelegation env (redirectUri parsed) who)
      as [e | url] eqn:Hbuild.
    + left. eexists. eapply delegation_fails; eassumption.
    + right. exists url. eapply handoff_navigates; eassumption.
  - left. eexists. eapply provider_rejects; eassumption.
Qed.

(** C9: on a successful handoff the URL assigned to [window.location.href]
    is the redirect URI, then [?delegation=], then the percent-encoded JSON
    text of the delegation; decoding that parameter gives the JSON text
    back exactly, and the encoded text holds no character that could end
    the parameter early. *)
Theorem handoff_success_url
    (env : Env) (p p1 : Page) (parsed : ParsedParams) (authClient : AuthClient)
    (chain : DelegationChain) :
  parseParams env p = (inr parsed, p1) ->
  AuthClient_create env (identity parsed) = inr authClient ->
  loginButton p = Some [] ->
  AuthClient_login env authClient (iiUri parsed)
  = LoginOnSuccess (WithDelegation chain) ->
  let json := JSON_stringify_toJSON env chain in
  let encoded := Uri.encodeURIComponent json in
  buildRedirectURLWithDelegation env (redirectUri parsed) (WithDelegation chain)
  = inr (redirectUri parsed ++ "?delegation=" ++ encoded)
  /\ navigation (handoff env p)
     = Some (redirectUri parsed ++ "?delegation=" ++ encoded)
  /\ Uri.decodeURIComponent encoded = Some json
  /\ forallb Uri.safe_char (list_ascii_of_string encoded) = true
  /\ get "redirect_uri" (searchParams p) = Some (redirectUri parsed).
Proof.
  intros Hparse Hcreate Hbutton Hlogin. cbv zeta.
  split; [reflexivity |].
  split; [| split; [apply decode_encode |
            split; [apply encodeURIComponent_safe |
                    apply (parseParams_success env _ _ _ Hparse)]]].
  now apply (handoff_navigates env p p1 parsed authClient (WithDelegation chain)).
Qed.

Lemma handoff_success_url_witness :
  let encoded := Uri.encodeURIComponent Scenario.json0 in
  buildRedirectURLWithDelegation Scenario.env_ok "https://app.example/cb"
    (WithDelegation Scenario.chain0)
  = inr ("https://app.example/cb" ++ "?delegation=" ++ encoded)
  /\ navigation (handoff Scenario.env_ok Scenario.page_ok)
     = Some ("https://app.example/cb" ++ "?delegation=" ++ encoded)
  /\ Uri.decodeURIComponent encoded = Some Scenario.json0
  /\ forallb Uri.safe_char (list_ascii_of_string encoded) = true
  /\ get "redirect_uri" (searchParams Scenario.page_ok)
     = Some "https://app.example/cb".
Proof.
  exact (handoff_success_url Scenario.env_ok Scenario.page_ok Scenario.page_ok
           Scenario.parsed_ok (mkAuthClient (identity Scenario.parsed_ok))
           Scenario.chain0 eq_refl eq_refl eq_refl eq_refl).
Defined.




End HandoffFlowClaims.

(* ===================================================================== *)
(** ** Properties of the bootstrap *)
(* ===================================================================== *)

Section BootstrapFacts.
Import Js Bootstrap.

Context {cipher : Cipher}.
Variable w : World.

Lemma count_calls_app (f : RemoteCall -> bool) (l1 l2 : list RemoteCall) :
  count_calls f (l1 ++ l2) = count_calls f l1 + count_calls f l2.
Proof.
  induction l1 as [| c rest IH]; [reflexivity |].
  cbn. rewrite IH. apply Nat.add_assoc.
Qed.

(** The transport key pair is generated afresh, so its public key is always
    available. *)
Lemma getTransportPublicKey_fresh (a : AuthState) :
  getTransportPublicKey w a
  = (inr (publicKeyBytes (freshTransportKey w)),
     {| aesRawKey := aesRawKey a; transportKey := Some (freshTransportKey w) |}).
Proof. reflexivity. Qed.

(** The two cipher-backed operations, spelled out. *)
Lemma decryptExistingAesKey_eq (encryptedAesKey encryptedKey publicKey : Bytes)
    (principal : Principal) (a : AuthState) :
  decryptExistingAesKey encryptedAesKey encryptedKey publicKey principal a
  = match transportKey a with
    | None => (inl (ErrorObject NotGenerated), a)
    | Some kp =>
        match unwrap (privateKeyHandle kp) encryptedAesKey encryptedKey
                     publicKey principal with
        | Some raw => (inr tt, {| aesRawKey := Some raw; transportKey := Some kp |})
        | None => (inl (ErrorObject CryptoError), a)
        end
    end.
Proof.
  unfold decryptExistingAesKey, AesKeyStore.setFromWrapped,
    TransportKeyManager.decrypt.
  destruct (transportKey a) as [kp |] eqn:Hkp; [| reflexivity].
  destruct (unwrap _ _ _ _ _); [| reflexivity].
  rewrite Hkp. reflexivity.
Qed.

Lemma generateAndEncryptAesKey_eq (publicKey : Bytes) (principal : Principal)
    (a : AuthState) :
  generateAndEncryptAesKey w publicKey principal a
  = let a' := {| aesRawKey := Some (freshAesKey w); transportKey := transportKey a |} in
    match wrap (freshAesKey w) publicKey principal with
    | Some ciphertext => (inr ciphertext, a')
    | None => (inl (ErrorObject CryptoError), a')
    end.
Proof.
  unfold generateAndEncryptAesKey, AesKeyStore.encryptForRemote. cbn.
  destruct (wrap _ _ _); reflexivity.
Qed.

Lemma status_InProgress (s : State) (stage : string) :
  status s = InProgress stage -> isLoading s = true.
Proof.
  unfold status. destruct (isLoading s); [reflexivity |].
  destruct (error s); [discriminate |].
  destruct (initializationCompleted s); discriminate.
Qed.

(** The guard at the head of [initAesKey]. *)
Lemma initAesKey_call_loading (identity : option Identity) (s : State) :
  isLoading s = true -> initAesKey_call w identity s = (s, None).
Proof.
  intros Hloading. unfold initAesKey_call, initAesKey_closure. rewrite Hloading. reflexivity.
Qed.

Lemma initAesKey_call_identity (identity : Identity) (s : State) :
  isLoading s = false ->
  initAesKey_call w (Some identity) s
  = (send (Call_asymmetric_keys (publicKeyBytes (freshTransportKey w))) (at_fetch w s),
     Some (AwaitAsymmetricKeys identity (publicKeyBytes (freshTransportKey w)))).
Proof.
  intros Hidle. unfold initAesKey_call, initAesKey_closure. rewrite Hidle. reflexivity.
Qed.

(** A suspended call is always in progress. *)
Lemma call_suspends_loading (identity : option Identity) (s s' : State) (p : Pending) :
  initAesKey_call w identity s = (s', Some p) -> isLoading s' = true.
Proof.
  unfold initAesKey_call, initAesKey_closure. destruct (isLoading s); [discriminate |].
  destruct identity as [identity |].
  - rewrite getTransportPublicKey_fresh. intros Heq. injection Heq as <- _. reflexivity.
  - intros Heq. injection Heq as <- _. reflexivity.
Qed.

Lemma resume_suspends_loading (p p' : Pending) (s s' : State) :
  isLoading s = true ->
  initAesKey_resume w p s = (s', Some p') -> isLoading s' = true.
Proof.
  intros Hloading. destruct p; cbn.
  - discriminate.
  - destruct (asymmetric_keys w identity transportPublicKey) as [e | reply];
      [discriminate |].
    destruct (encrypted_aes_key reply), (encrypted_key reply);
      intros Heq; injection Heq as <- _; exact Hloading.
  - unfold decryptExistingAesKey, AesKeyStore.setFromWrapped,
      TransportKeyManager.decrypt.
    destruct (transportKey (auth s)); [| discriminate].
    destruct (unwrap _ _ _ _ _); discriminate.
  - destruct (wrap (freshAesKey w) publicKey principal); [| discriminate].
    intros Heq. injection Heq as <- _. exact Hloading.
  - destruct (asymmetric_save_encrypted_aes_key w identity newEncryptedAesKey);
      discriminate.
Qed.

(** Every attempt settles: after at most three resumptions no continuation
    is left. *)
Lemma initAesKey_settles (identity : option Identity) (s : State) :
  snd (initAesKey w identity s) = None.
Proof.
  unfold initAesKey, initAesKey_call, initAesKey_closure.
  destruct (isLoading s); [reflexivity |].
  destruct identity as [identity |]; [| reflexivity].
  rewrite getTransportPublicKey_fresh. cbn.
  destruct (asymmetric_keys w identity _) as [e | reply]; [reflexivity |].
  assert (Hsave : forall q payload,
    snd (settle w 1 (initAesKey_resume w
           (AwaitGenerateAndEncryptAesKey identity payload (getPrincipal identity)) q))
    = None).
  { intros q payload. cbn.
    destruct (wrap (freshAesKey w) payload (getPrincipal identity)); [| reflexivity].
    cbn. destruct (asymmetric_save_encrypted_aes_key w identity _); reflexivity. }
  destruct (encrypted_aes_key reply) as [encryptedAesKey |],
           (encrypted_key reply) as [encryptedKey |];
    cbn [settle]; try apply Hsave.
  cbn. rewrite decryptExistingAesKey_eq. cbn.
  destruct (unwrap _ _ _ _ _); reflexivity.
Qed.

(** *** The four ways an attempt runs *)

Lemma run_without_identity (s : State) :
  isLoading s = false ->
  initAesKey w None s
  = (setIsLoading false
       (set_initializationCompleted true
          (setInitializationStatus "AES key generated"
             (set_auth {| aesRawKey := Some (freshAesKey w);
                          transportKey := transportKey (auth s) |}
                (setInitializationStatus "Generating new AES key..."
                   (console_log "No identity found, generating new AES key"
                      (set_initializationAttempted true
                         (setIsLoading true (setError None s)))))))),
     None).
Proof.
  intros Hidle. unfold initAesKey, initAesKey_call, initAesKey_closure. rewrite Hidle. reflexivity.
Qed.

Lemma run_fetch_fails (identity : Identity) (s : State) (err : Unknown) :
  isLoading s = false ->
  asymmetric_keys w identity (publicKeyBytes (freshTransportKey w)) = inl err ->
  initAesKey w (Some identity) s
  = (catch_finally err
       (send (Call_asymmetric_keys (publicKeyBytes (freshTransportKey w)))
          (at_fetch w s)),
     None).
Proof.
  intros Hidle Hfetch. unfold initAesKey.
  rewrite initAesKey_call_identity by exact Hidle.
  cbn [settle initAesKey_resume]. rewrite Hfetch. reflexivity.
Qed.

Lemma run_decrypt (identity : Identity) (s : State) (reply : KeysReply)
    (encryptedAesKey encryptedKey : Bytes) :
  isLoading s = false ->
  asymmetric_keys w identity (publicKeyBytes (freshTransportKey w)) = inr reply ->
  encrypted_aes_key reply = Some encryptedAesKey ->
  encrypted_key reply = Some encryptedKey ->
  initAesKey w (Some identity) s
  = match unwrap (privateKeyHandle (freshTransportKey w)) encryptedAesKey
                 encryptedKey (public_key reply) (getPrincipal identity) with
    | Some raw =>
        (complete_finally
           (set_auth {| aesRawKey := Some raw;
                        transportKey := Some (freshTransportKey w) |}
              (at_decrypt w s)),
         None)
    | None =>
        (catch_finally (ErrorObject CryptoError)
           (set_auth (auth (at_decrypt w s)) (at_decrypt w s)),
         None)
    end.
Proof.
  intros Hidle Hfetch Haes Hkey. unfold initAesKey.
  rewrite initAesKey_call_identity by exact Hidle.
  cbn [settle initAesKey_resume]. rewrite Hfetch. cbv zeta.
  rewrite Haes, Hkey. cbn [settle initAesKey_resume].
  rewrite decryptExistingAesKey_eq. cbn.
  destruct (unwrap _ _ _ _ _); reflexivity.
Qed.

Lemma run_generate (identity : Identity) (s : State) (reply : KeysReply) :
  isLoading s = false ->
  asymmetric_keys w identity (publicKeyBytes (freshTransportKey w)) = inr reply ->
  encrypted_aes_key reply = None \/ encrypted_key reply = None ->
  initAesKey w (Some identity) s
  = match wrap (freshAesKey w) (public_key reply) (getPrincipal identity) with
    | None => (catch_finally (ErrorObject CryptoError) (at_generated w s), None)
    | Some payload =>
        match asymmetric_save_encrypted_aes_key w identity payload with
        | inl err => (catch_finally err (at_save w payload s), None)
        | inr _ => (complete_finally (at_save w payload s), None)
        end
    end.
Proof.
  intros Hidle Hfetch Hpartial. unfold initAesKey.
  rewrite initAesKey_call_identity by exact Hidle.
  cbn [settle initAesKey_resume]. rewrite Hfetch. cbv zeta.
  assert (Hbranch :
    match encrypted_aes_key reply, encrypted_key reply with
    | Some _, Some _ => False
    | _, _ => True
    end).
  { destruct Hpartial as [-> | ->]; [exact I |].
    destruct (encrypted_aes_key reply); exact I. }
  destruct (encrypted_aes_key reply), (encrypted_key reply);
    try contradiction;
    cbn [settle initAesKey_resume];
    rewrite generateAndEncryptAesKey_eq; cbn;
    (destruct (wrap _ _ _); [| reflexivity]);
    cbn; destruct (asymmetric_save_encrypted_aes_key w identity _); reflexivity.
Qed.

End BootstrapFacts.

Section BootstrapClaims.
Import Js Bootstrap.

(** The guard at work, for the callback of the current render: in every
    state whose status is InProgress, a call of the callback that the
    render of that state made changes nothing: the state it returns is the
    state it was given, and no continuation is started. *)
Theorem reentrant_call_changes_nothing {cipher : Cipher}
    (w : World) (identity : option Identity) (s : State) (stage : string) :
  status s = InProgress stage ->
  initAesKey_call w identity s = (s, None)
  /\ initAesKey w identity s = (s, None)
  /\ let s' := fst (initAesKey w identity s) in
     aesRawKey (auth s') = aesRawKey (auth s)
     /\ transportKey (auth s') = transportKey (auth s)
     /\ status s' = status s
     /\ fetchKeys_calls s' = fetchKeys_calls s
     /\ saveEncryptedKey_calls s' = saveEncryptedKey_calls s.
Proof.
  intros Hstatus. apply status_InProgress in Hstatus.
  assert (Hcall : initAesKey_call w identity s = (s, None))
    by now apply initAesKey_call_loading.
  assert (Hrun : initAesKey w identity s = (s, None))
    by (unfold initAesKey; rewrite Hcall; reflexivity).
  split; [exact Hcall |]. split; [exact Hrun |].
  cbv zeta. rewrite Hrun. cbn [fst]. repeat split.
Qed.

Lemma reentrant_call_changes_nothing_witness :
  status Scenario.waiting = InProgress "Fetching keys from backend..."
  /\ @initAesKey_call Scenario.world_both (Some Scenario.alice) Scenario.waiting
     = (Scenario.waiting, None)
  /\ @initAesKey Scenario.toy Scenario.world_both (Some Scenario.alice) Scenario.waiting
     = (Scenario.waiting, None).
Proof.
  split; [reflexivity |].
  destruct (@reentrant_call_changes_nothing Scenario.toy Scenario.world_both
              (Some Scenario.alice) Scenario.waiting
              "Fetching keys from backend..." eq_refl) as (Hcall & Hrun & _).
  split; [exact Hcall | exact Hrun].
Defined.

(** C5: in every attempt with an identity, the request to the backend
    leaves from a state in which the symmetric key is cleared; and if the
    backend call fails, the attempt ends with status Failed, carrying that
    error, with the symmetric key still cleared and no other remote call
    made. *)
Theorem key_cleared_before_fetch {cipher : Cipher}
    (w : World) (identity : Identity) (s : State) :
  isLoading s = false ->
  let tpk := publicKeyBytes (freshTransportKey w) in
  (exists s0,
     initAesKey_call w (Some identity) s
     = (send (Call_asymmetric_keys tpk) s0, Some (AwaitAsymmetricKeys identity tpk))
     /\ aesRawKey (auth s0) = None
     /\ remoteCalls s0 = remoteCalls s)
  /\ (forall err,
        asymmetric_keys w identity tpk = inl err ->
        let s' := fst (initAesKey w (Some identity) s) in
        snd (initAesKey w (Some identity) s) = None
        /\ status s'
           = Failed (as_Error err) ("Failed to initialize AES key: " ++ String_of err)
        /\ aesRawKey (auth s') = None
        /\ remoteCalls s' = (remoteCalls s ++ [Call_asymmetric_keys tpk])%list).
Proof.
  intros Hidle. cbv zeta. split.
  - exists (at_fetch w s). split; [now apply initAesKey_call_identity |].
    split; reflexivity.
  - intros err Hfetch. rewrite (run_fetch_fails w identity s err Hidle Hfetch).
    repeat split.
Qed.

Lemma key_cleared_before_fetch_witness :
  let s' := fst (@initAesKey Scenario.toy Scenario.world_offline
                   (Some Scenario.alice) Scenario.startup) in
  aesRawKey (auth Scenario.startup) = Some [x99]
  /\ status s'
     = Failed (new_Error "Network request failed")
         "Failed to initialize AES key: Error: Network request failed"
  /\ aesRawKey (auth s') = None
  /\ remoteCalls s' = [Call_asymmetric_keys [x10]].
Proof.
  destruct (@key_cleared_before_fetch Scenario.toy Scenario.world_offline
              Scenario.alice Scenario.startup eq_refl) as [_ Hfail].
  destruct (Hfail (ErrorObject (new_Error "Network request failed")) eq_refl)
    as (_ & Hstatus & Hkey & Hcalls).
  split; [reflexivity |].
  split; [exact Hstatus |]. split; [exact Hkey | exact Hcalls].
Defined.

(** C6, as the code has it: in every attempt with an identity in which
    the backend's reply carries both wrapped fields and these are valid,
    that is, they unwrap under the attempt's transport key to a key [raw]:
    the backend is asked for the keys exactly once, nothing is saved to
    it, [raw] is the stored symmetric key and the attempt ends
    Completed. *)
Theorem existing_key_is_decrypted {cipher : Cipher}
    (w : World) (identity : Identity) (s : State) (reply : KeysReply)
    (encryptedAesKey encryptedKey raw : Bytes) :
  isLoading s = false ->
  asymmetric_keys w identity (publicKeyBytes (freshTransportKey w)) = inr reply ->
  encrypted_aes_key reply = Some encryptedAesKey ->
  encrypted_key reply = Some encryptedKey ->
  unwrap (privateKeyHandle (freshTransportKey w)) encryptedAesKey encryptedKey
         (public_key reply) (getPrincipal identity) = Some raw ->
  let s' := fst (initAesKey w (Some identity) s) in
  snd (initAesKey w (Some identity) s) = None
  /\ remoteCalls s'
     = (remoteCalls s ++ [Call_asymmetric_keys (publicKeyBytes (freshTransportKey w))])%list
  /\ fetchKeys_calls s' = fetchKeys_calls s + 1
  /\ saveEncryptedKey_calls s' = saveEncryptedKey_calls s
  /\ aesRawKey (auth s') = Some raw
  /\ status s' = Completed.
Proof.
  intros Hidle Hfetch Haes Hkey Hraw. cbv zeta.
  rewrite (run_decrypt w identity s reply _ _ Hidle Hfetch Haes Hkey), Hraw.
  cbn [fst snd].
  assert (Hcalls :
    remoteCalls (complete_finally
                   (set_auth {| aesRawKey := Some raw;
                                transportKey := Some (freshTransportKey w) |}
                      (at_decrypt w s)))
    = (remoteCalls s ++ [Call_asymmetric_keys (publicKeyBytes (freshTransportKey w))])%list)
    by reflexivity.
  split; [reflexivity |]. split; [exact Hcalls |].
  unfold fetchKeys_calls, saveEncryptedKey_calls. rewrite Hcalls, !count_calls_app.
  cbn [count_calls is_fetchKeys is_saveEncryptedKey].
  repeat split. apply Nat.add_0_r.
Qed.

Lemma existing_key_is_decrypted_witness :
  let s' := fst (@initAesKey Scenario.toy Scenario.world_both
                   (Some Scenario.alice) Scenario.startup) in
  snd (@initAesKey Scenario.toy Scenario.world_both
         (Some Scenario.alice) Scenario.startup) = None
  /\ remoteCalls s' = [Call_asymmetric_keys [x10]]
  /\ fetchKeys_calls s' = 1
  /\ saveEncryptedKey_calls s' = 0
  /\ aesRawKey (auth s') = Some [x77; x78]
  /\ status s' = Completed.
Proof.
  exact (@existing_key_is_decrypted Scenario.toy Scenario.world_both Scenario.alice
           Scenario.startup Scenario.reply_both [x77; x78] [x11] [x77; x78]
           eq_refl eq_refl eq_refl eq_refl eq_refl).
Defined.

(** Whatever the two wrapped fields unwrap to, a reply that carries both
    costs exactly one keys request and no save request. *)
Lemma both_fields_remote_calls {cipher : Cipher}
    (w : World) (identity : Identity) (s : State) (reply : KeysReply)
    (encryptedAesKey encryptedKey : Bytes) :
  isLoading s = false ->
  asymmetric_keys w identity (publicKeyBytes (freshTransportKey w)) = inr reply ->
  encrypted_aes_key reply = Some encryptedAesKey ->
  encrypted_key reply = Some encryptedKey ->
  remoteCalls (fst (initAesKey w (Some identity) s))
  = (remoteCalls s ++ [Call_asymmetric_keys (publicKeyBytes (freshTransportKey w))])%list.
Proof.
  intros Hidle Hfetch Haes Hkey.
  rewrite (run_decrypt w identity s reply _ _ Hidle Hfetch Haes Hkey).
  destruct (unwrap _ _ _ _ _); cbn -[app]; reflexivity.
Qed.

(** C7: every attempt without an identity ends Completed with the locally
    generated key stored, and the remote collaborator receives no call:
    neither the keys request nor the save request. *)
Theorem local_key_without_identity {cipher : Cipher} (w : World) (s : State) :
  isLoading s = false ->
  let s' := fst (initAesKey w None s) in
  snd (initAesKey w None s) = None
  /\ status s' = Completed
  /\ aesRawKey (auth s') = Some (freshAesKey w)
  /\ remoteCalls s' = remoteCalls s
  /\ fetchKeys_calls s' = fetchKeys_calls s
  /\ saveEncryptedKey_calls s' = saveEncryptedKey_calls s.
Proof.
  intros Hidle. cbv zeta. rewrite (run_without_identity w s Hidle).
  repeat split.
Qed.

Lemma local_key_without_identity_witness :
  let s' := fst (@initAesKey Scenario.toy Scenario.world_offline None Scenario.startup) in
  snd (@initAesKey Scenario.toy Scenario.world_offline None Scenario.startup) = None
  /\ status s' = Completed
  /\ aesRawKey (auth s') = Some [x42; x43]
  /\ remoteCalls s' = []
  /\ fetchKeys_calls s' = 0
  /\ saveEncryptedKey_calls s' = 0.
Proof.
  exact (@local_key_without_identity Scenario.toy Scenario.world_offline
           Scenario.startup eq_refl).
Defined.

End BootstrapClaims.

Section PartialReplyClaims.
Import Js Bootstrap.

(** C1 as stated fails: with a reply that carries [encrypted_aes_key] but
    not [encrypted_key], the attempt does not fail at all. It generates a
    key, saves its encryption to the backend and ends Completed. *)
Lemma partial_reply_completes :
  exactly_one_present Scenario.reply_partial = true
  /\ asymmetric_keys Scenario.world_partial Scenario.alice [x10]
     = inr Scenario.reply_partial
  /\ let s' := fst (@initAesKey Scenario.toy Scenario.world_partial
                      (Some Scenario.alice) Scenario.startup) in
     status s' = Completed
     /\ (forall e stage, status s' <> Failed e stage)
     /\ aesRawKey (auth s') = Some [x42; x43]
     /\ remoteCalls s'
        = [Call_asymmetric_keys [x10];
           Call_asymmetric_save_encrypted_aes_key [x20; x42; x43]].
Proof.
  repeat split. cbn. discriminate.
Qed.

(** C1, as the code has it: a reply in which exactly one of the two
    wrapped fields is present is treated like a reply with neither. The
    attempt generates a new key and encrypts it under the reply's public
    key; if that succeeds it sends the ciphertext to the backend's save
    call, and it ends Completed, with the generated key stored, exactly
    when the save succeeds too. It ends Failed only with the error of the
    encryption or of the save, never on account of the shape of the
    reply. *)
Theorem partial_reply_generates_and_saves {cipher : Cipher}
    (w : World) (identity : Identity) (s : State) (reply : KeysReply) :
  isLoading s = false ->
  asymmetric_keys w identity (publicKeyBytes (freshTransportKey w)) = inr reply ->
  exactly_one_present reply = true ->
  let tpk := publicKeyBytes (freshTransportKey w) in
  let s' := fst (initAesKey w (Some identity) s) in
  snd (initAesKey w (Some identity) s) = None
  /\ match wrap (freshAesKey w) (public_key reply) (getPrincipal identity) with
     | None =>
         status s' = Failed CryptoError
                       ("Failed to initialize AES key: " ++ Error_toString CryptoError)
         /\ remoteCalls s' = (remoteCalls s ++ [Call_asymmetric_keys tpk])%list
     | Some payload =>
         remoteCalls s'
         = (remoteCalls s ++ [Call_asymmetric_keys tpk;
                              Call_asymmetric_save_encrypted_aes_key payload])%list
         /\ match asymmetric_save_encrypted_aes_key w identity payload with
            | inr _ =>
                status s' = Completed /\ aesRawKey (auth s') = Some (freshAesKey w)
            | inl err =>
                status s' = Failed (as_Error err)
                              ("Failed to initialize AES key: " ++ String_of err)
            end
     end.
Proof.
  intros Hidle Hfetch Hone. cbv zeta.
  assert (Hpartial : encrypted_aes_key reply = None \/ encrypted_key reply = None).
  { unfold exactly_one_present in Hone.
    destruct (encrypted_aes_key reply), (encrypted_key reply);
      try discriminate Hone; auto. }
  rewrite (run_generate w identity s reply Hidle Hfetch Hpartial).
  destruct (wrap (freshAesKey w) (public_key reply) (getPrincipal identity))
    as [payload |].
  - destruct (asymmetric_save_encrypted_aes_key w identity payload) as [err | ok];
      cbn [fst snd]; (split; [reflexivity |]);
      (split; [cbn -[app]; rewrite <- app_assoc; reflexivity |]).
    + reflexivity.
    + split; reflexivity.
  - cbn [fst snd]. repeat split.
Qed.

Lemma partial_reply_generates_and_saves_witness :
  let s' := fst (@initAesKey Scenario.toy Scenario.world_partial
                   (Some Scenario.alice) Scenario.startup) in
  snd (@initAesKey Scenario.toy Scenario.world_partial
         (Some Scenario.alice) Scenario.startup) = None
  /\ remoteCalls s'
     = [Call_asymmetric_keys [x10];
        Call_asymmetric_save_encrypted_aes_key [x20; x42; x43]]
  /\ status s' = Completed
  /\ aesRawKey (auth s') = Some [x42; x43].
Proof.
  destruct (@partial_reply_generates_and_saves Scenario.toy Scenario.world_partial
              Scenario.alice Scenario.startup Scenario.reply_partial
              eq_refl eq_refl eq_refl) as (Hsettled & Hcalls & Hstatus & Hkey).
  split; [exact Hsettled |]. split; [exact Hcalls |].
  split; [exact Hstatus | exact Hkey].
Defined.

End PartialReplyClaims.

(* ===================================================================== *)
(** ** Further properties of the landing page *)
(* ===================================================================== *)

Section HandoffExtras.
Import Js Handoff.

Lemma append_inv_head (a b c : string) : a ++ b = a ++ c -> b = c.
Proof.
  induction a as [| x a IH]; cbn; intros Heq; [exact Heq |].
  injection Heq as Heq. now apply IH.
Qed.

Lemma encodeURIComponent_injective (x y : string) :
  Uri.encodeURIComponent x = Uri.encodeURIComponent y -> x = y.
Proof.
  intros Heq.
  assert (Hdec : Some x = Some y)
    by (rewrite <- (decode_encode x), <- (decode_encode y), Heq; reflexivity).
  now injection Hdec.
Qed.

Lemma get_remove_other (name other : string) (params : list (string * string)) :
  name <> other -> get name (remove_param other params) = get name params.
Proof.
  intros Hneq. induction params as [| [k v] rest IH]; [reflexivity |].
  cbn. destruct (String.eqb k other) eqn:Hko; cbn.
  - apply String.eqb_eq in Hko. subst k.
    destruct (String.eqb other name) eqn:Hon; [| exact IH].
    apply String.eqb_eq in Hon. congruence.
  - destruct (String.eqb k name); [reflexivity | exact IH].
Qed.

(** The result of [parseParams] is a function of the three parameters and
    the decoder alone. *)
Lemma parseParams_result (env : Env) (p : Page) :
  fst (parseParams env p)
  = match get "redirect_uri" (searchParams p), get "pubkey" (searchParams p),
          get "ii_uri" (searchParams p) with
    | Some r, Some k, Some i =>
        if truthy r && truthy k && truthy i then
          match fromDer_fromHex env k with
          | inl e => inl e
          | inr key => inr {| redirectUri := r;
                              identity := PublicKeyOnlyIdentity key;
                              iiUri := i |}
          end
        else inl (ErrorObject MissingParameter)
    | _, _, _ => inl (ErrorObject MissingParameter)
    end.
Proof.
  unfold parseParams.
  destruct (get "redirect_uri" (searchParams p)) as [r |];
    destruct (get "pubkey" (searchParams p)) as [k |];
    destruct (get "ii_uri" (searchParams p)) as [i |];
    try destruct r; try destruct k; try destruct i; cbn;
    unfold bind; try rewrite renderError_eta; cbn; try reflexivity.
  unfold lift. destruct (fromDer_fromHex env _); reflexivity.
Qed.

(** X1: [parseParams] returns parsed parameters exactly when the three
    parameters are present and non-empty and the public key decodes; it
    then returns the first value of [redirect_uri] and of [ii_uri], an
    identity that reports the decoded key, and leaves the page as it was. *)
Theorem parseParams_succeeds_iff (env : Env) (p : Page) (parsed : ParsedParams) :
  ((exists p1, parseParams env p = (inr parsed, p1))
   <-> (exists r k i key,
          get "redirect_uri" (searchParams p) = Some r
          /\ get "pubkey" (searchParams p) = Some k
          /\ get "ii_uri" (searchParams p) = Some i
          /\ truthy r = true /\ truthy k = true /\ truthy i = true
          /\ fromDer_fromHex env k = inr key
          /\ parsed = {| redirectUri := r;
                         identity := PublicKeyOnlyIdentity key;
                         iiUri := i |}))
  /\ (forall p1, parseParams env p = (inr parsed, p1) ->
       p1 = p /\ forall blob, sign (identity parsed) blob
                              = inl (ErrorObject SigningNotSupported)).
Proof.
  split; [split |].
  - intros [p1 Hparse].
    assert (Hfst : fst (parseParams env p) = inr parsed) by now rewrite Hparse.
    rewrite parseParams_result in Hfst.
    destruct (get "redirect_uri" (searchParams p)) as [r |]; [| discriminate].
    destruct (get "pubkey" (searchParams p)) as [k |]; [| discriminate].
    destruct (get "ii_uri" (searchParams p)) as [i |]; [| discriminate].
    destruct (truthy r) eqn:Hr; [| discriminate].
    destruct (truthy k) eqn:Hk; [| discriminate].
    destruct (truthy i) eqn:Hi; [| discriminate].
    cbn in Hfst.
    destruct (fromDer_fromHex env k) as [e | key] eqn:Hkey; [discriminate |].
    injection Hfst as <-. exists r, k, i, key. repeat split; auto.
  - intros (r & k & i & key & Hr & Hk & Hi & Tr & Tk & Ti & Hkey & ->).
    exists p. unfold parseParams. rewrite Hr, Hk, Hi.
    destruct r; [discriminate |]. destruct k; [discriminate |].
    destruct i; [discriminate |].
    cbn. unfold bind, lift. rewrite Hkey. reflexivity.
  - intros p1 Hparse.
    destruct (parseParams_success env _ _ _ Hparse)
      as (-> & _ & _ & hex & key & _ & _ & ->).
    split; reflexivity.
Qed.

(** X2: when the three parameters are there but the public key does not
    decode, [parseParams] throws the decoder's error without touching the
    page, and [main] shows it as an initialization failure, registers no
    click listener and does not navigate. *)
Theorem invalid_key_fails_initialization
    (env : Env) (p : Page) (r k i : string) (e : Unknown) :
  get "redirect_uri" (searchParams p) = Some r ->
  get "pubkey" (searchParams p) = Some k ->
  get "ii_uri" (searchParams p) = Some i ->
  truthy r = true -> truthy k = true -> truthy i = true ->
  fromDer_fromHex env k = inl e ->
  parseParams env p = (inl e, p)
  /\ main env p
     = (inr tt, snd (renderError (formatError "initialization failed" e) p))
  /\ loginButton (snd (main env p)) = loginButton p
  /\ navigation (snd (main env p)) = navigation p
  /\ (errorElement p <> None ->
      visible_error (snd (main env p))
      = Some (formatError "initialization failed" e)).
Proof.
  intros Hr Hk Hi Tr Tk Ti Hkey.
  assert (Hparse : parseParams env p = (inl e, p)).
  { unfold parseParams. rewrite Hr, Hk, Hi.
    destruct r; [discriminate |]. destruct k; [discriminate |].
    destruct i; [discriminate |].
    cbn. unfold bind, lift. rewrite Hkey. reflexivity. }
  assert (Hmain : main env p
     = (inr tt, snd (renderError (formatError "initialization failed" e) p))).
  { unfold main, try_catch, bind. rewrite Hparse. apply renderError_eta. }
  split; [exact Hparse |]. split; [exact Hmain |].
  rewrite Hmain. cbn [snd].
  destruct (renderError_frame (formatError "initialization failed" e) p)
    as (Hn & Hb & _).
  split; [exact Hb |]. split; [exact Hn |].
  apply (rendered_last (formatError "initialization failed" e) p).
  apply formatError_truthy.
Qed.

Lemma invalid_key_fails_initialization_witness :
  parseParams Cases.env_bad_key Scenario.page_ok
  = (inl (ErrorObject (new_Error "Invalid DER")), Scenario.page_ok)
  /\ loginButton (snd (main Cases.env_bad_key Scenario.page_ok)) = Some []
  /\ navigation (snd (main Cases.env_bad_key Scenario.page_ok)) = None
  /\ visible_error (snd (main Cases.env_bad_key Scenario.page_ok))
     = Some "Internet Identity initialization failed: Invalid DER".
Proof.
  destruct (invalid_key_fails_initialization Cases.env_bad_key Scenario.page_ok
              "https://app.example/cb" "0102" "https://id.example"
              (ErrorObject (new_Error "Invalid DER"))
              eq_refl eq_refl eq_refl eq_refl eq_refl eq_refl eq_refl)
    as (Hparse & _ & Hb & Hn & Hv).
  split; [exact Hparse |]. split; [exact Hb |]. split; [exact Hn |].
  apply Hv. discriminate.
Defined.

End HandoffExtras.

Section HandoffExtrasFlow.
Import Js Handoff.

Lemma onClick_returns (env : Env) (l : Listener) (p : Page) :
  fst (onClick env l p) = inr tt.
Proof.
  unfold onClick, bind, try_catch.
  rewrite (renderError_eta EmptyString p).
  destruct (AuthClient_login env (l_authClient l) (l_iiUri l)) as [e | who | e].
  - unfold throw. apply renderError_returns.
  - rewrite (renderError_eta EmptyString (snd (renderError EmptyString p))).
    unfold lift.
    destruct (buildRedirectURLWithDelegation env (l_redirectUri l) who) as [e | url].
    + rewrite renderError_eta. reflexivity.
    + reflexivity.
  - rewrite renderError_eta. reflexivity.
Qed.

(** X3: neither [main] nor the click listener ever throws: every error
    ends in [renderError]. [main] never navigates and never changes the
    query; it leaves the button's listeners alone or adds exactly one. The
    listener leaves the query and the listeners alone. *)
Theorem handlers_never_throw (env : Env) (l : Listener) (p : Page) :
  (fst (main env p) = inr tt
   /\ navigation (snd (main env p)) = navigation p
   /\ searchParams (snd (main env p)) = searchParams p
   /\ (loginButton (snd (main env p)) = loginButton p
       \/ exists ls l', loginButton p = Some ls
                        /\ loginButton (snd (main env p)) = Some (ls ++ [l'])%list))
  /\ (fst (onClick env l p) = inr tt
      /\ searchParams (snd (onClick env l p)) = searchParams p
      /\ loginButton (snd (onClick env l p)) = loginButton p).
Proof.
  split.
  - destruct (parseParams env p) as [[e | parsed] p1] eqn:Hparse.
    { assert (Hmain : main env p
        = (inr tt, snd (renderError (formatError "initialization failed" e) p1))).
      { unfold main, try_catch, bind. rewrite Hparse. apply renderError_eta. }
      rewrite Hmain. cbn [fst snd].
      destruct (renderError_frame (formatError "initialization failed" e) p1)
        as (Hn2 & Hb2 & Hs2).
      assert (H1 : navigation p1 = navigation p
                   /\ loginButton p1 = loginButton p
                   /\ searchParams p1 = searchParams p).
      { destruct (parseParams_failure env _ _ _ Hparse) as [-> | ->];
          [auto | apply renderError_frame]. }
      destruct H1 as (A & B & C).
      repeat split; try congruence. left. congruence. }
    destruct (AuthClient_create env (identity parsed)) as [e | authClient] eqn:Hcreate.
    { destruct (parseParams_success env _ _ _ Hparse) as [-> _].
      unfold main, try_catch, bind. rewrite Hparse. unfold lift. rewrite Hcreate.
      rewrite renderError_eta. cbn [fst snd].
      destruct (renderError_frame (formatError "initialization failed" e) p)
        as (Hn2 & Hb2 & Hs2).
      repeat split; auto. }
    destruct (loginButton p) as [ls |] eqn:Hbutton.
    + rewrite (main_success env p p1 parsed authClient ls Hparse Hcreate Hbutton).
      cbn [fst snd navigation searchParams loginButton].
      repeat split. right. eauto.
    + destruct (parseParams_success env _ _ _ Hparse) as [-> _].
      unfold main, try_catch, bind. rewrite Hparse. unfold lift. rewrite Hcreate.
      unfold addEventListener_click. rewrite Hbutton.
      rewrite renderError_eta. cbn [fst snd].
      destruct (renderError_frame
                  (formatError "initialization failed"
                     (ErrorObject null_addEventListener)) p)
        as (Hn2 & Hb2 & Hs2).
      repeat split; auto. left. congruence.
  - split; [apply onClick_returns |].
    rewrite onClick_page.
    destruct (renderError_frame EmptyString p) as (_ & Hb0 & Hs0).
    destruct (renderError_frame EmptyString (snd (renderError EmptyString p)))
      as (_ & Hb1 & Hs1).
    destruct (AuthClient_login env (l_authClient l) (l_iiUri l)) as [e | who | e].
    + destruct (renderError_frame (formatError "login process failed" e)
                  (snd (renderError EmptyString p))) as (_ & Hb & Hs).
      split; congruence.
    + destruct (buildRedirectURLWithDelegation env (l_redirectUri l) who)
        as [e | url].
      * destruct (renderError_frame (formatError "delegation retrieval failed" e)
                    (snd (renderError EmptyString (snd (renderError EmptyString p)))))
          as (_ & Hb & Hs).
        split; congruence.
      * cbn [snd assign_location_href searchParams loginButton].
        split; congruence.
    + match goal with
      | |- context [renderError ?m (snd (renderError EmptyString p))] =>
          destruct (renderError_frame m (snd (renderError EmptyString p)))
            as (_ & Hb & Hs)
      end.
      split; congruence.
Qed.

End HandoffExtrasFlow.

Section HandoffExtrasClick.
Import Js Handoff.

(** X4: when the provider reports an error without a message (none, or
    the empty string), the listener shows the fixed text ending in
    [Unknown error] and does not navigate. *)
Theorem silent_provider_error_reads_unknown
    (env : Env) (l : Listener) (p : Page) (error : option string) :
  AuthClient_login env (l_authClient l) (l_iiUri l) = LoginOnError error ->
  truthy_opt error = false ->
  errorElement p <> None ->
  visible_error (snd (onClick env l p))
  = Some "Internet Identity authentication rejected: Unknown error"
  /\ navigation (snd (onClick env l p)) = navigation p.
Proof.
  intros Hlogin Hsilent Hel.
  rewrite onClick_page, Hlogin, Hsilent.
  destruct (rendered_last
              (formatError "authentication rejected" (OtherValue "Unknown error"))
              (snd (renderError EmptyString p)) eq_refl) as (Hn & Hv & _).
  destruct (renderError_frame EmptyString p) as (Hn0 & _).
  split; [| congruence].
  apply Hv. rewrite renderError_keeps_absence. exact Hel.
Qed.

Lemma silent_provider_error_reads_unknown_witness :
  visible_error (snd (onClick Cases.env_silent_error Cases.listener_ok Scenario.page_ok))
  = Some "Internet Identity authentication rejected: Unknown error"
  /\ navigation (snd (onClick Cases.env_silent_error Cases.listener_ok Scenario.page_ok))
     = None.
Proof.
  apply (silent_provider_error_reads_unknown Cases.env_silent_error
           Cases.listener_ok Scenario.page_ok None eq_refl eq_refl).
  discriminate.
Defined.

(** X5: a click whose login succeeds navigates to the built URL whatever
    the page showed before, also after earlier failed clicks, and leaves
    no error visible: the [#error] paragraph, if there is one, is emptied
    and hidden. *)
Theorem successful_click_clears_and_navigates
    (env : Env) (l : Listener) (p : Page) (who : IdentityObject) (url : string) :
  AuthClient_login env (l_authClient l) (l_iiUri l) = LoginOnSuccess who ->
  buildRedirectURLWithDelegation env (l_redirectUri l) who = inr url ->
  let p' := snd (onClick env l p) in
  navigation p' = Some url
  /\ visible_error p' = None
  /\ (errorElement p <> None ->
      errorElement p' = Some {| textContent := EmptyString; display := "none" |})
  /\ (forall env0 l0, navigation (snd (onClick env l (snd (onClick env0 l0 p))))
                      = Some url).
Proof.
  intros Hlogin Hbuild. cbv zeta.
  assert (Hany : forall q,
    navigation (snd (onClick env l q)) = Some url
    /\ errorElement (snd (onClick env l q))
       = match errorElement q with
         | Some _ => Some {| textContent := EmptyString; display := "none" |}
         | None => None
         end).
  { intros q. rewrite onClick_page, Hlogin, Hbuild. cbn [snd assign_location_href
      navigation errorElement]. split; [reflexivity |].
    rewrite !renderError_element. destruct (errorElement q); reflexivity. }
  destruct (Hany p) as [Hn He].
  split; [exact Hn |]. split; [| split].
  - unfold visible_error. rewrite He. destruct (errorElement p); reflexivity.
  - intros Hel. rewrite He. destruct (errorElement p); [reflexivity | congruence].
  - intros env0 l0. apply Hany.
Qed.

Lemma successful_click_clears_and_navigates_witness :
  let p' := snd (onClick Scenario.env_ok Cases.listener_ok Cases.page_with_error) in
  visible_error Cases.page_with_error
  = Some "Internet Identity login process failed: x"
  /\ navigation p'
     = Some ("https://app.example/cb?delegation="
             ++ Uri.encodeURIComponent Scenario.json0)
  /\ visible_error p' = None.
Proof.
  destruct (successful_click_clears_and_navigates Scenario.env_ok
              Cases.listener_ok Cases.page_with_error
              (WithDelegation Scenario.chain0)
              ("https://app.example/cb?delegation="
               ++ Uri.encodeURIComponent Scenario.json0)
              eq_refl eq_refl) as (Hn & Hv & _).
  split; [reflexivity |]. split; [exact Hn | exact Hv].
Defined.

(** X6: for one redirect URI, the URL determines the JSON text of the
    delegation: two delegations that serialize differently never yield the
    same URL. An identity without delegation yields no URL at all. *)
Theorem redirect_url_determines_delegation
    (env : Env) (redirectUri : string) (c1 c2 : DelegationChain) (url : string) :
  buildRedirectURLWithDelegation env redirectUri (WithDelegation c1) = inr url ->
  buildRedirectURLWithDelegation env redirectUri (WithDelegation c2) = inr url ->
  JSON_stringify_toJSON env c1 = JSON_stringify_toJSON env c2
  /\ (forall u, buildRedirectURLWithDelegation env redirectUri WithoutDelegation
                <> inr u).
Proof.
  unfold buildRedirectURLWithDelegation. cbn.
  intros H1 H2. split; [| discriminate].
  injection H1 as H1. injection H2 as H2. rewrite <- H2 in H1.
  apply append_inv_head in H1. apply (append_inv_head "?delegation=") in H1.
  now apply encodeURIComponent_injective.
Qed.

Lemma redirect_url_determines_delegation_witness :
  JSON_stringify_toJSON Scenario.env_ok Scenario.chain0
  = JSON_stringify_toJSON Scenario.env_ok Scenario.chain0
  /\ (forall u, buildRedirectURLWithDelegation Scenario.env_ok
                  "https://app.example/cb" WithoutDelegation <> inr u).
Proof.
  exact (redirect_url_determines_delegation Scenario.env_ok "https://app.example/cb"
           Scenario.chain0 Scenario.chain0
           ("https://app.example/cb?delegation="
            ++ Uri.encodeURIComponent Scenario.json0) eq_refl eq_refl).
Defined.

(** X7: [renderError] keeps no history: on a document with the [#error]
    paragraph a second call wins completely, and the empty message hides
    the paragraph; on a document without it every call only adds a line to
    the console. *)
Theorem renderError_last_call_wins (m1 m2 : string) (p : Page) :
  (errorElement p <> None ->
   snd (renderError m2 (snd (renderError m1 p))) = snd (renderError m2 p)
   /\ visible_error (snd (renderError EmptyString (snd (renderError m1 p)))) = None)
  /\ (errorElement p = None ->
      errorElement (snd (renderError m2 (snd (renderError m1 p)))) = None
      /\ console (snd (renderError m2 (snd (renderError m1 p))))
         = (console p ++ ["Error element not found"; "Error element not found"])%list).
Proof.
  unfold renderError. split; intros Hel.
  - destruct (errorElement p) eqn:Hp; [| congruence]. cbn. split; reflexivity.
  - rewrite Hel. cbn. rewrite Hel. cbn. split; [reflexivity |].
    rewrite <- app_assoc. reflexivity.
Qed.

Lemma renderError_last_call_wins_witness :
  snd (renderError "b" (snd (renderError "a" Scenario.page_ok)))
  = snd (renderError "b" Scenario.page_ok)
  /\ console (snd (renderError "b"
                     (snd (renderError "a" Scenario.page_no_error_element))))
     = ["Error element not found"; "Error element not found"].
Proof.
  destruct (renderError_last_call_wins "a" "b" Scenario.page_ok) as [Hsome _].
  destruct (renderError_last_call_wins "a" "b" Scenario.page_no_error_element)
    as [_ Hnone].
  split.
  - apply Hsome. discriminate.
  - apply (Hnone eq_refl).
Defined.

(** The page [parseParams] leaves: untouched, unless the guard fires. *)
Lemma parseParams_page (env : Env) (p : Page) :
  snd (parseParams env p)
  = match get "redirect_uri" (searchParams p), get "pubkey" (searchParams p),
          get "ii_uri" (searchParams p) with
    | Some r, Some k, Some i =>
        if truthy r && truthy k && truthy i then p
        else snd (renderError (message MissingParameter) p)
    | _, _, _ => snd (renderError (message MissingParameter) p)
    end.
Proof.
  unfold parseParams.
  destruct (get "redirect_uri" (searchParams p)) as [r |];
    destruct (get "pubkey" (searchParams p)) as [k |];
    destruct (get "ii_uri" (searchParams p)) as [i |];
    try destruct r; try destruct k; try destruct i; cbn;
    unfold bind; try rewrite renderError_eta; cbn; try reflexivity.
  unfold lift. destruct (fromDer_fromHex env _); reflexivity.
Qed.

(** X8: query parameters other than the three the script reads are
    ignored: removing such a parameter changes neither the result of
    [parseParams] nor what it renders. *)
Theorem parseParams_ignores_other_parameters (env : Env) (p : Page) (other : string) :
  ~ In other ["redirect_uri"; "pubkey"; "ii_uri"] ->
  fst (parseParams env (without other p)) = fst (parseParams env p)
  /\ errorElement (snd (parseParams env (without other p)))
     = errorElement (snd (parseParams env p))
  /\ navigation (snd (parseParams env (without other p)))
     = navigation (snd (parseParams env p)).
Proof.
  intros Hother.
  assert (Hr : "redirect_uri" <> other) by (intros <-; apply Hother; cbn; auto).
  assert (Hk : "pubkey" <> other) by (intros <-; apply Hother; cbn; auto).
  assert (Hi : "ii_uri" <> other) by (intros <-; apply Hother; cbn; auto).
  split.
  - rewrite !parseParams_result. cbn [without searchParams].
    rewrite !get_remove_other by assumption. reflexivity.
  - rewrite !parseParams_page. cbn [without searchParams].
    rewrite !get_remove_other by assumption.
    assert (Hrendered :
      errorElement (snd (renderError (message MissingParameter) (without other p)))
      = errorElement (snd (renderError (message MissingParameter) p))
      /\ navigation (snd (renderError (message MissingParameter) (without other p)))
         = navigation (snd (renderError (message MissingParameter) p))).
    { rewrite !renderError_element.
      destruct (renderError_frame (message MissingParameter) p) as (-> & _).
      destruct (renderError_frame (message MissingParameter) (without other p))
        as (-> & _).
      split; reflexivity. }
    destruct (get "redirect_uri" (searchParams p)) as [r |]; [| exact Hrendered].
    destruct (get "pubkey" (searchParams p)) as [k |]; [| exact Hrendered].
    destruct (get "ii_uri" (searchParams p)) as [i |]; [| exact Hrendered].
    destruct (truthy r && truthy k && truthy i); [split; reflexivity | exact Hrendered].
Qed.

Lemma parseParams_ignores_other_parameters_witness :
  fst (parseParams Scenario.env_ok (without "utm_source" Cases.page_extra_param))
  = fst (parseParams Scenario.env_ok Cases.page_extra_param)
  /\ fst (parseParams Scenario.env_ok Cases.page_extra_param)
     = inr Scenario.parsed_ok.
Proof.
  destruct (parseParams_ignores_other_parameters Scenario.env_ok
              Cases.page_extra_param "utm_source") as (Hfst & _).
  - cbn. intros [H | [H | [H | []]]]; discriminate H.
  - split; [exact Hfst | reflexivity].
Defined.

End HandoffExtrasClick.

(* ===================================================================== *)
(** ** Further properties of the bootstrap and of [RootLayoutNav] *)
(* ===================================================================== *)

Section BootstrapExtras.
Import Js Bootstrap Layout.

Lemma resume_keeps_attempted {cipher : Cipher} (w : World) (p : Pending) (s : State) :
  initializationAttempted (fst (initAesKey_resume w p s)) = initializationAttempted s.
Proof.
  destruct p; cbn [initAesKey_resume].
  - reflexivity.
  - destruct (asymmetric_keys w identity transportPublicKey) as [e | reply];
      [reflexivity |].
    cbv zeta. destruct (encrypted_aes_key reply), (encrypted_key reply); reflexivity.
  - rewrite decryptExistingAesKey_eq.
    destruct (transportKey (auth s)); [| reflexivity].
    destruct (unwrap _ _ _ _ _); reflexivity.
  - rewrite generateAndEncryptAesKey_eq. cbv zeta.
    destruct (wrap _ _ _); reflexivity.
  - destruct (asymmetric_save_encrypted_aes_key w identity newEncryptedAesKey);
      reflexivity.
Qed.

Lemma settle_keeps_attempted {cipher : Cipher} (w : World) (fuel : nat)
    (c : State * option Pending) :
  initializationAttempted (fst (settle w fuel c)) = initializationAttempted (fst c).
Proof.
  revert c. induction fuel as [| fuel IH]; intros [s [p |]]; try reflexivity.
  cbn [settle]. rewrite IH. apply resume_keeps_attempted.
Qed.

Lemma call_sets_attempted (w : World) (identity : option Identity) (s : State) :
  isLoading s = false ->
  initializationAttempted (fst (initAesKey_call w identity s)) = true
  /\ exists p, snd (initAesKey_call w identity s) = Some p.
Proof.
  intros Hidle. unfold initAesKey_call, initAesKey_closure. rewrite Hidle.
  destruct identity as [identity |]; cbn; eauto.
Qed.

(** What the [catch] and [finally] blocks leave, whatever came before. *)
Lemma catch_finally_facts (err : Unknown) (x : State) :
  let stage := "Failed to initialize AES key: " ++ String_of err in
  status (catch_finally err x) = Failed (as_Error err) stage
  /\ render true (catch_finally err x)
     = InitializationError (message (as_Error err)) stage
  /\ isLoading (catch_finally err x) = false
  /\ initializationCompleted (catch_finally err x) = initializationCompleted x
  /\ initializationAttempted (catch_finally err x) = initializationAttempted x
  /\ auth (catch_finally err x) = auth x
  /\ remoteCalls (catch_finally err x) = remoteCalls x.
Proof. repeat split. Qed.

(** What the end of the [try] block and [finally] leave. *)
Lemma complete_finally_facts (x : State) :
  error x = None ->
  status (complete_finally x) = Completed
  /\ render true (complete_finally x) = Application
  /\ isLoading (complete_finally x) = false
  /\ initializationAttempted (complete_finally x) = initializationAttempted x
  /\ auth (complete_finally x) = auth x
  /\ remoteCalls (complete_finally x) = remoteCalls x.
Proof.
  intros Herr. unfold status, render, complete_finally. cbn. rewrite Herr.
  repeat split.
Qed.

Ltac failed_case :=
  match goal with
  | |- context [catch_finally ?err ?x] =>
      destruct (catch_finally_facts err x)
        as (Hstatus & Hrender & Hloading & Hcompleted & Hattempted & _);
      cbv zeta in Hstatus, Hrender;
      split; [exact Hloading |];
      split; [rewrite Hattempted; reflexivity |];
      right; exists (as_Error err), ("Failed to initialize AES key: " ++ String_of err);
      split; [exact Hstatus |]; split; [exact Hrender |];
      rewrite Hcompleted; reflexivity
  end.

Ltac completed_case :=
  match goal with
  | |- context [complete_finally ?x] =>
      destruct (complete_finally_facts x eq_refl)
        as (Hstatus & Hrender & Hloading & Hattempted & Hauth & _);
      split; [exact Hloading |];
      split; [rewrite Hattempted; reflexivity |];
      left; split; [exact Hstatus |]; split; [exact Hrender |];
      rewrite Hauth; eexists; reflexivity
  end.

(** X9: every attempt started from an idle state ends with the loading
    flag off, in one of two ways: Completed, the application is rendered
    and a symmetric key is stored; or Failed, the error screen is rendered
    with the message of the error, and [initializationCompleted] is as it
    was before the attempt. *)
Theorem attempt_ends_completed_or_failed {cipher : Cipher}
    (w : World) (identity : option Identity) (s : State) :
  isLoading s = false ->
  let s' := fst (initAesKey w identity s) in
  isLoading s' = false
  /\ initializationAttempted s' = true
  /\ ((status s' = Completed
       /\ render true s' = Application
       /\ exists key, aesRawKey (auth s') = Some key)
      \/ (exists e stage,
            status s' = Failed e stage
            /\ render true s' = InitializationError (message e) stage
            /\ initializationCompleted s' = initializationCompleted s)).
Proof.
  intros Hidle. cbv zeta.
  destruct identity as [identity |].
  2:{ rewrite (run_without_identity w s Hidle). cbn [fst].
      split; [reflexivity |]. split; [reflexivity |].
      left. split; [reflexivity |]. split; [reflexivity |].
      exists (freshAesKey w). reflexivity. }
  destruct (asymmetric_keys w identity (publicKeyBytes (freshTransportKey w)))
    as [err | reply] eqn:Hfetch.
  { rewrite (run_fetch_fails w identity s err Hidle Hfetch). cbn [fst].
    failed_case. }
  destruct (encrypted_aes_key reply) as [encryptedAesKey |] eqn:Haes.
  - destruct (encrypted_key reply) as [encryptedKey |] eqn:Hkey.
    + rewrite (run_decrypt w identity s reply _ _ Hidle Hfetch Haes Hkey).
      destruct (unwrap _ _ _ _ _); cbn [fst]; [completed_case | failed_case].
    + rewrite (run_generate w identity s reply Hidle Hfetch (or_intror Hkey)).
      destruct (wrap _ _ _) as [payload |];
        [destruct (asymmetric_save_encrypted_aes_key w identity payload) |];
        cbn [fst]; [failed_case | completed_case | failed_case].
  - rewrite (run_generate w identity s reply Hidle Hfetch (or_introl Haes)).
    destruct (wrap _ _ _) as [payload |];
      [destruct (asymmetric_save_encrypted_aes_key w identity payload) |];
      cbn [fst]; [failed_case | completed_case | failed_case].
Qed.

Lemma attempt_ends_completed_or_failed_witness :
  let s' := fst (@initAesKey Scenario.toy Cases.world_foreign
                   (Some Scenario.alice) Scenario.startup) in
  isLoading s' = false
  /\ initializationAttempted s' = true
  /\ render true s'
     = InitializationError "cipher operation failed"
         "Failed to initialize AES key: CryptoError: cipher operation failed".
Proof.
  destruct (@attempt_ends_completed_or_failed Scenario.toy Cases.world_foreign
              (Some Scenario.alice) Scenario.startup eq_refl)
    as (Hloading & Hattempted & _).
  split; [exact Hloading |]. split; [exact Hattempted | reflexivity].
Defined.

End BootstrapExtras.

Section BootstrapExtrasPaths.
Import Js Bootstrap Layout.

Lemma remoteCalls_at_save (w : World) (payload : Bytes) (s : State) :
  remoteCalls (at_save w payload s)
  = (remoteCalls s ++ [Call_asymmetric_keys (publicKeyBytes (freshTransportKey w));
                       Call_asymmetric_save_encrypted_aes_key payload])%list.
Proof.
  cbn -[app]. rewrite <- app_assoc. reflexivity.
Qed.

(** X10: when the reply lacks a wrapped field and the attempt ends
    Completed, the backend has received exactly one save call, and what it
    received is the encryption, under the reply's public key, of the very
    key that is now stored. *)
Theorem saved_key_matches_stored_key {cipher : Cipher}
    (w : World) (identity : Identity) (s : State) (reply : KeysReply) :
  isLoading s = false ->
  asymmetric_keys w identity (publicKeyBytes (freshTransportKey w)) = inr reply ->
  encrypted_aes_key reply = None \/ encrypted_key reply = None ->
  let s' := fst (initAesKey w (Some identity) s) in
  status s' = Completed ->
  exists key payload,
    aesRawKey (auth s') = Some key
    /\ wrap key (public_key reply) (getPrincipal identity) = Some payload
    /\ remoteCalls s'
       = (remoteCalls s ++ [Call_asymmetric_keys (publicKeyBytes (freshTransportKey w));
                            Call_asymmetric_save_encrypted_aes_key payload])%list
    /\ saveEncryptedKey_calls s' = saveEncryptedKey_calls s + 1
    /\ fetchKeys_calls s' = fetchKeys_calls s + 1.
Proof.
  intros Hidle Hfetch Hpartial. cbv zeta.
  rewrite (run_generate w identity s reply Hidle Hfetch Hpartial).
  destruct (wrap (freshAesKey w) (public_key reply) (getPrincipal identity))
    as [payload |] eqn:Hwrap.
  2:{ cbn [fst].
      destruct (catch_finally_facts (ErrorObject CryptoError) (at_generated w s))
        as (Hstatus & _).
      cbv zeta in Hstatus. rewrite Hstatus. discriminate. }
  destruct (asymmetric_save_encrypted_aes_key w identity payload) as [err | ok];
    cbn [fst].
  { destruct (catch_finally_facts err (at_save w payload s)) as (Hstatus & _).
    cbv zeta in Hstatus. rewrite Hstatus. discriminate. }
  intros _.
  destruct (complete_finally_facts (at_save w payload s) eq_refl)
    as (_ & _ & _ & _ & Hauth & Hcalls).
  exists (freshAesKey w), payload.
  rewrite Hauth.
  assert (Hlist : remoteCalls (complete_finally (at_save w payload s))
    = (remoteCalls s ++ [Call_asymmetric_keys (publicKeyBytes (freshTransportKey w));
                         Call_asymmetric_save_encrypted_aes_key payload])%list)
    by (rewrite Hcalls; apply remoteCalls_at_save).
  split; [reflexivity |]. split; [exact Hwrap |]. split; [exact Hlist |].
  unfold saveEncryptedKey_calls, fetchKeys_calls.
  rewrite Hlist, !count_calls_app. cbn [count_calls is_fetchKeys is_saveEncryptedKey].
  split; reflexivity.
Qed.

Lemma saved_key_matches_stored_key_witness :
  let s' := fst (@initAesKey Scenario.toy Cases.world_neither
                   (Some Scenario.alice) Scenario.startup) in
  exists key payload,
    aesRawKey (auth s') = Some key
    /\ @wrap Scenario.toy key [x20] [x0a] = Some payload
    /\ remoteCalls s'
       = [Call_asymmetric_keys [x10]; Call_asymmetric_save_encrypted_aes_key payload]
    /\ saveEncryptedKey_calls s' = 1
    /\ fetchKeys_calls s' = 1.
Proof.
  exact (@saved_key_matches_stored_key Scenario.toy Cases.world_neither
           Scenario.alice Scenario.startup Cases.reply_neither
           eq_refl eq_refl (or_introl eq_refl) eq_refl).
Defined.

(** X11: when the reply carries both wrapped fields but they do not
    unwrap, the attempt ends Failed and stops there: it does not fall back
    to generating a key, nothing is saved to the backend, and no symmetric
    key is stored. *)
Theorem failed_decryption_saves_nothing {cipher : Cipher}
    (w : World) (identity : Identity) (s : State) (reply : KeysReply)
    (encryptedAesKey encryptedKey : Bytes) :
  isLoading s = false ->
  asymmetric_keys w identity (publicKeyBytes (freshTransportKey w)) = inr reply ->
  encrypted_aes_key reply = Some encryptedAesKey ->
  encrypted_key reply = Some encryptedKey ->
  unwrap (privateKeyHandle (freshTransportKey w)) encryptedAesKey encryptedKey
         (public_key reply) (getPrincipal identity) = None ->
  let s' := fst (initAesKey w (Some identity) s) in
  status s' = Failed CryptoError
                ("Failed to initialize AES key: " ++ Error_toString CryptoError)
  /\ remoteCalls s'
     = (remoteCalls s ++ [Call_asymmetric_keys (publicKeyBytes (freshTransportKey w))])%list
  /\ saveEncryptedKey_calls s' = saveEncryptedKey_calls s
  /\ aesRawKey (auth s') = None.
Proof.
  intros Hidle Hfetch Haes Hkey Hraw. cbv zeta.
  rewrite (run_decrypt w identity s reply _ _ Hidle Hfetch Haes Hkey), Hraw.
  cbn [fst].
  destruct (catch_finally_facts (ErrorObject CryptoError)
              (set_auth (auth (at_decrypt w s)) (at_decrypt w s)))
    as (Hstatus & _ & _ & _ & _ & Hauth & Hcalls).
  cbv zeta in Hstatus.
  assert (Hlist : remoteCalls (catch_finally (ErrorObject CryptoError)
                                 (set_auth (auth (at_decrypt w s)) (at_decrypt w s)))
    = (remoteCalls s ++ [Call_asymmetric_keys (publicKeyBytes (freshTransportKey w))])%list)
    by (rewrite Hcalls; reflexivity).
  split; [exact Hstatus |]. split; [exact Hlist |]. split.
  - unfold saveEncryptedKey_calls. rewrite Hlist, count_calls_app.
    cbn [count_calls is_saveEncryptedKey]. now rewrite Nat.add_0_r.
  - rewrite Hauth. reflexivity.
Qed.

Lemma failed_decryption_saves_nothing_witness :
  let s' := fst (@initAesKey Scenario.toy Cases.world_foreign
                   (Some Scenario.alice) Scenario.startup) in
  status s' = Failed CryptoError
                "Failed to initialize AES key: CryptoError: cipher operation failed"
  /\ remoteCalls s' = [Call_asymmetric_keys [x10]]
  /\ saveEncryptedKey_calls s' = 0
  /\ aesRawKey (auth s') = None.
Proof.
  exact (@failed_decryption_saves_nothing Scenario.toy Cases.world_foreign
           Scenario.alice Scenario.startup Cases.reply_foreign [x77; x78] [x55]
           eq_refl eq_refl eq_refl eq_refl eq_refl).
Defined.

End BootstrapExtrasPaths.

Section BootstrapExtrasCalls.
Import Js Bootstrap Layout.

(** A call of a callback that captured [isLoading = false] does what the
    callback of an idle state does, whatever the loading flag of the state
    it is called in. *)
Lemma closure_idle_is_call (w : World) (identity : option Identity) (s : State) :
  initAesKey_closure w identity false s
  = initAesKey_call w identity (setIsLoading false s).
Proof.
  unfold initAesKey_call. cbn [isLoading setIsLoading].
  unfold initAesKey_closure. destruct identity; reflexivity.
Qed.

Ltac calls_after_fetch w s :=
  exists [Call_asymmetric_keys (publicKeyBytes (freshTransportKey w))];
  split; [reflexivity
         | split; [constructor | split; [discriminate | intros _; discriminate]]].

(** The calls of an attempt made by the callback of an idle state. *)
Lemma idle_attempt_calls {cipher : Cipher}
    (w : World) (identity : option Identity) (s : State) :
  isLoading s = false ->
  exists added,
    remoteCalls (fst (initAesKey w identity s)) = (remoteCalls s ++ added)%list
    /\ attempt_calls (publicKeyBytes (freshTransportKey w)) added
    /\ (identity = None -> added = [])
    /\ (identity <> None -> added <> []).
Proof.
  intros Hidle.
  destruct identity as [identity |].
  2:{ exists []. rewrite (run_without_identity w s Hidle). cbn -[app].
      rewrite app_nil_r. split; [reflexivity |]. split; [constructor |].
      split; [reflexivity | intros Habs; now contradiction Habs]. }
  destruct (asymmetric_keys w identity (publicKeyBytes (freshTransportKey w)))
    as [err | reply] eqn:Hfetch.
  { rewrite (run_fetch_fails w identity s err Hidle Hfetch). calls_after_fetch w s. }
  assert (Hgenerate :
    encrypted_aes_key reply = None \/ encrypted_key reply = None ->
    exists added,
      remoteCalls (fst (initAesKey w (Some identity) s)) = (remoteCalls s ++ added)%list
      /\ attempt_calls (publicKeyBytes (freshTransportKey w)) added
      /\ (Some identity = None -> added = [])
      /\ (Some identity <> None -> added <> [])).
  { intros Hpartial. rewrite (run_generate w identity s reply Hidle Hfetch Hpartial).
    destruct (wrap _ _ _) as [payload |]; [| calls_after_fetch w s].
    exists [Call_asymmetric_keys (publicKeyBytes (freshTransportKey w));
            Call_asymmetric_save_encrypted_aes_key payload].
    split; [| split; [constructor | split; [discriminate | intros _; discriminate]]].
    destruct (asymmetric_save_encrypted_aes_key w identity payload); cbn [fst].
    - destruct (catch_finally_facts u (at_save w payload s))
        as (_ & _ & _ & _ & _ & _ & ->).
      apply remoteCalls_at_save.
    - destruct (complete_finally_facts (at_save w payload s) eq_refl)
        as (_ & _ & _ & _ & _ & ->).
      apply remoteCalls_at_save. }
  destruct (encrypted_aes_key reply) as [encryptedAesKey |] eqn:Haes;
    [| apply Hgenerate; now left].
  destruct (encrypted_key reply) as [encryptedKey |] eqn:Hkey;
    [| apply Hgenerate; now right].
  rewrite (run_decrypt w identity s reply _ _ Hidle Hfetch Haes Hkey).
  destruct (unwrap _ _ _ _ _); calls_after_fetch w s.
Qed.

(** X12: one call of [initAesKey] run to its end, whatever the state it is
    called in, adds to the calls the backend has received nothing, or one
    keys request, or one keys request followed by one save request. A
    callback that captured [isLoading = true] adds nothing and leaves the
    state as it is; a callback without an identity adds nothing; a callback
    with an identity that captured [isLoading = false] always sends the
    keys request, even when the state it is called in is loading. *)
Theorem attempt_makes_at_most_two_calls {cipher : Cipher}
    (w : World) (identity : option Identity) (isLoading_at_render : bool)
    (s : State) :
  let s' := fst (settle w 3 (initAesKey_closure w identity isLoading_at_render s)) in
  exists added,
    remoteCalls s' = (remoteCalls s ++ added)%list
    /\ attempt_calls (publicKeyBytes (freshTransportKey w)) added
    /\ (isLoading_at_render = true -> added = [] /\ s' = s)
    /\ (identity = None -> added = [])
    /\ (isLoading_at_render = false -> identity <> None -> added <> []).
Proof.
  cbv zeta. destruct isLoading_at_render.
  { exists []. cbn. rewrite app_nil_r.
    split; [reflexivity |]. split; [constructor |].
    split; [auto |]. split; [auto | discriminate]. }
  rewrite closure_idle_is_call.
  change (settle w 3 (initAesKey_call w identity (setIsLoading false s)))
    with (initAesKey w identity (setIsLoading false s)).
  destruct (idle_attempt_calls w identity (setIsLoading false s) eq_refl)
    as (added & Hcalls & Hshape & Hnone & Hsome).
  exists added. split; [exact Hcalls |]. split; [exact Hshape |].
  split; [discriminate |]. split; [exact Hnone | intros _; exact Hsome].
Qed.

(** X13: a failed attempt can be retried. After an attempt that failed at
    the keys request, the error screen is shown; pressing Retry when the
    backend then answers with valid wrapped fields ends Completed with the
    error cleared and the unwrapped key stored, and the backend has been
    asked for the keys twice in all and never asked to save. *)
Theorem retry_after_failed_fetch {cipher : Cipher}
    (w1 w2 : World) (identity : Identity) (s : State) (err : Unknown)
    (reply : KeysReply) (encryptedAesKey encryptedKey raw : Bytes) :
  isLoading s = false ->
  asymmetric_keys w1 identity (publicKeyBytes (freshTransportKey w1)) = inl err ->
  asymmetric_keys w2 identity (publicKeyBytes (freshTransportKey w2)) = inr reply ->
  encrypted_aes_key reply = Some encryptedAesKey ->
  encrypted_key reply = Some encryptedKey ->
  unwrap (privateKeyHandle (freshTransportKey w2)) encryptedAesKey encryptedKey
         (public_key reply) (getPrincipal identity) = Some raw ->
  let failed := fst (initAesKey w1 (Some identity) s) in
  let s' := fst (settle w2 3 (handleRetry w2 (Some identity) failed)) in
  render true failed
  = InitializationError (message (as_Error err))
      ("Failed to initialize AES key: " ++ String_of err)
  /\ status s' = Completed
  /\ error s' = None
  /\ aesRawKey (auth s') = Some raw
  /\ remoteCalls s'
     = (remoteCalls s
        ++ [Call_asymmetric_keys (publicKeyBytes (freshTransportKey w1));
            Call_asymmetric_keys (publicKeyBytes (freshTransportKey w2))])%list.
Proof.
  intros Hidle Hfail Hfetch Haes Hkey Hraw. cbv zeta.
  rewrite (run_fetch_fails w1 identity s err Hidle Hfail). cbn [fst].
  set (failed := catch_finally err
                   (send (Call_asymmetric_keys (publicKeyBytes (freshTransportKey w1)))
                      (at_fetch w1 s))).
  destruct (catch_finally_facts err
              (send (Call_asymmetric_keys (publicKeyBytes (freshTransportKey w1)))
                 (at_fetch w1 s)))
    as (_ & Hrender & Hloading & _ & _ & _ & Hcalls).
  cbv zeta in Hrender. fold failed in Hrender, Hloading, Hcalls.
  split; [exact Hrender |].
  change (settle w2 3 (handleRetry w2 (Some identity) failed))
    with (initAesKey w2 (Some identity) failed).
  rewrite (run_decrypt w2 identity failed reply _ _ Hloading Hfetch Haes Hkey), Hraw.
  cbn [fst].
  assert (Herr : error (set_auth {| aesRawKey := Some raw;
                                   transportKey := Some (freshTransportKey w2) |}
                          (at_decrypt w2 failed)) = None) by reflexivity.
  destruct (complete_finally_facts _ Herr) as (Hstatus & _ & _ & _ & Hauth & Hlist).
  split; [exact Hstatus |].
  split; [exact Herr |].
  split; [rewrite Hauth; reflexivity |].
  rewrite Hlist.
  change (remoteCalls (set_auth {| aesRawKey := Some raw;
                                   transportKey := Some (freshTransportKey w2) |}
                         (at_decrypt w2 failed)))
    with (remoteCalls failed
          ++ [Call_asymmetric_keys (publicKeyBytes (freshTransportKey w2))])%list.
  rewrite Hcalls.
  change (remoteCalls (send (Call_asymmetric_keys (publicKeyBytes (freshTransportKey w1)))
                         (at_fetch w1 s)))
    with (remoteCalls s
          ++ [Call_asymmetric_keys (publicKeyBytes (freshTransportKey w1))])%list.
  rewrite <- app_assoc. reflexivity.
Qed.

Lemma retry_after_failed_fetch_witness :
  let s' := fst (@settle Scenario.toy Scenario.world_both 3
                   (handleRetry Scenario.world_both (Some Scenario.alice) Cases.failed)) in
  render true Cases.failed
  = InitializationError "Network request failed"
      "Failed to initialize AES key: Error: Network request failed"
  /\ status s' = Completed
  /\ error s' = None
  /\ aesRawKey (auth s') = Some [x77; x78]
  /\ remoteCalls s' = [Call_asymmetric_keys [x10]; Call_asymmetric_keys [x10]].
Proof.
  exact (@retry_after_failed_fetch Scenario.toy Scenario.world_offline
           Scenario.world_both Scenario.alice Scenario.startup
           (ErrorObject (new_Error "Network request failed"))
           Scenario.reply_both [x77; x78] [x11] [x77; x78]
           eq_refl eq_refl eq_refl eq_refl eq_refl eq_refl).
Defined.

End BootstrapExtrasCalls.

Section LayoutExtras.
Import Js Bootstrap Layout.

Lemma continue_keeps_attempted (w : World) (s : State) :
  initializationAttempted (handleContinueWithLocalKey w s) = initializationAttempted s.
Proof. reflexivity. Qed.

(** X14: Continue with Local Key never calls the backend and never
    touches the refs of the auto-initialize effect. While its key
    generation is awaited the loading screen is shown. When the generation
    resolves it ends Completed with the application rendered; when it
    rejects it ends Failed, with the error screen showing the error, and
    [initializationCompleted] is left as it was. Either way the loading
    flag is off at the end. With the key store of the specification the
    generation always resolves, and the generated key is the one stored. *)
Theorem continue_with_local_key_outcomes
    (outcome : (Unknown + unit) * AuthState) (s : State) :
  let waiting := handleContinueWithLocalKey_call s in
  let s' := handleContinueWithLocalKey_settle outcome waiting in
  render true waiting = Preparing "Generating local AES key..."
  /\ error waiting = None
  /\ isLoading s' = false
  /\ remoteCalls s' = remoteCalls s
  /\ auth s' = snd outcome
  /\ initializationAttempted s' = initializationAttempted s
  /\ match fst outcome with
     | inr _ =>
         status s' = Completed /\ render true s' = Application
         /\ initializationCompleted s' = true
     | inl err =>
         let stage := "Failed to generate local AES key: " ++ String_of err in
         status s' = Failed (as_Error err) stage
         /\ render true s' = InitializationError (message (as_Error err)) stage
         /\ initializationCompleted s' = initializationCompleted s
     end
  /\ (forall w,
        handleContinueWithLocalKey w s
        = handleContinueWithLocalKey_settle (generateAesKey w (auth waiting)) waiting
        /\ status (handleContinueWithLocalKey w s) = Completed
        /\ aesRawKey (auth (handleContinueWithLocalKey w s)) = Some (freshAesKey w)
        /\ transportKey (auth (handleContinueWithLocalKey w s))
           = transportKey (auth s)).
Proof.
  cbv zeta. destruct outcome as [[err | ok] a]; cbn [fst snd];
    repeat split.
Qed.

(** X15: the auto-initialize effect does nothing before [isReady], and it
    starts at most one attempt: once it has started one, running the
    effect again does nothing, whether the attempt is still suspended, has
    completed or has failed, whether the identity has changed since, and
    also after Continue with Local Key. *)
Theorem auto_initialize_starts_once {cipher : Cipher}
    (w : World) (isReady : bool) (identity : option Identity) (s : State) :
  (isReady = false -> autoInitialize w isReady identity s = (s, None))
  /\ (snd (autoInitialize w isReady identity s) <> None ->
      isReady = true
      /\ forall fuel w' isReady' identity',
           let later := fst (settle w fuel (autoInitialize w isReady identity s)) in
           autoInitialize w' isReady' identity' later = (later, None)
           /\ autoInitialize w' isReady' identity' (handleContinueWithLocalKey w' later)
              = (handleContinueWithLocalKey w' later, None)).
Proof.
  split.
  - intros ->. reflexivity.
  - unfold autoInitialize at 1.
    destruct isReady; [| cbn; congruence].
    destruct (initializationAttempted s) eqn:Hattempted; [cbn; congruence |].
    cbn [negb orb]. intros Hstarted. split; [reflexivity |].
    intros fuel w' isReady' identity'. cbv zeta.
    assert (Hidle : isLoading s = false).
    { destruct (isLoading s) eqn:Hloading; [| reflexivity].
      rewrite (initAesKey_call_loading w identity s Hloading) in Hstarted.
      now contradiction Hstarted. }
    assert (Hlater :
      initializationAttempted
        (fst (settle w fuel (autoInitialize w true identity s))) = true).
    { rewrite settle_keeps_attempted. unfold autoInitialize.
      rewrite Hattempted. cbn [negb orb].
      apply (call_sets_attempted w identity s Hidle). }
    split; unfold autoInitialize at 1.
    + rewrite Hlater, orb_true_r. reflexivity.
    + rewrite continue_keeps_attempted, Hlater, orb_true_r. reflexivity.
Qed.

Lemma auto_initialize_starts_once_witness :
  let started := @autoInitialize Scenario.world_offline true (Some Scenario.alice)
                   Scenario.startup in
  snd started <> None
  /\ @autoInitialize Scenario.world_both true None
       (fst (@settle Scenario.toy Scenario.world_offline 3 started))
     = (fst (@settle Scenario.toy Scenario.world_offline 3 started), None).
Proof.
  assert (Hstarted : snd (@autoInitialize Scenario.world_offline true
                            (Some Scenario.alice) Scenario.startup) <> None)
    by (cbn; discriminate).
  split; [exact Hstarted |].
  destruct (@auto_initialize_starts_once Scenario.toy Scenario.world_offline true
              (Some Scenario.alice) Scenario.startup) as [_ Honce].
  destruct (Honce Hstarted) as [_ Hlater].
  exact (proj1 (Hlater 3 Scenario.world_both true None)).
Defined.

(** X16: the Retry button is only on the error screen, and there it is
    never swallowed by the guard at the head of [initAesKey]: pressing it
    always starts a new attempt, clears the error and brings up the
    loading screen. *)
Theorem retry_button_always_starts
    (w : World) (isReady : bool) (identity : option Identity) (s : State)
    (errorText statusText : string) :
  render isReady s = InitializationError errorText statusText ->
  let s1 := fst (handleRetry w identity s) in
  (exists p, snd (handleRetry w identity s) = Some p)
  /\ error s1 = None
  /\ render isReady s1 = Preparing (initializationStatus s1)
  /\ initializationAttempted s1 = true.
Proof.
  unfold render. destruct isReady; [| discriminate]. cbn [negb].
  destruct (isLoading s) eqn:Hidle; [discriminate |].
  intros _. cbv zeta. unfold handleRetry.
  destruct (call_sets_attempted w identity s Hidle) as [Hattempted Hpending].
  split; [exact Hpending |].
  split; [| split; [| exact Hattempted]];
    unfold initAesKey_call, initAesKey_closure; rewrite Hidle;
    destruct identity as [identity |]; reflexivity.
Qed.

Lemma retry_button_always_starts_witness :
  let s1 := fst (handleRetry Scenario.world_both (Some Scenario.alice) Cases.failed) in
  (exists p, snd (handleRetry Scenario.world_both (Some Scenario.alice) Cases.failed)
             = Some p)
  /\ error s1 = None
  /\ render true s1 = Preparing "Fetching keys from backend..."
  /\ initializationAttempted s1 = true.
Proof.
  exact (retry_button_always_starts Scenario.world_both true (Some Scenario.alice)
           Cases.failed "Network request failed"
           "Failed to initialize AES key: Error: Network request failed" eq_refl).
Defined.

End LayoutExtras.

(* ===================================================================== *)
(** ** Properties of [isLocalhostSubdomainSupported] and of [LoggedOut] *)
(* ===================================================================== *)

Section LocalhostExtras.
Import Localhost.

Lemma startsWith_spec (p s : string) :
  startsWith p s = true <-> exists rest, s = p ++ rest.
Proof.
  revert s. induction p as [| a p IH]; intros s; cbn.
  - split; [intros _; now exists s | reflexivity].
  - destruct s as [| b s]; cbn.
    + split; [discriminate | intros [rest Heq]; discriminate Heq].
    + rewrite andb_true_iff, IH. split.
      * intros [Hab [rest ->]]. apply Ascii.eqb_eq in Hab. subst b. now exists rest.
      * intros [rest Heq]. injection Heq as -> ->.
        split; [apply Ascii.eqb_refl | now exists rest].
Qed.

(** [includes] finds [sub] exactly when the text has it as a substring. *)
Lemma includes_spec (sub s : string) :
  includes sub s = true <-> exists before after, s = before ++ sub ++ after.
Proof.
  induction s as [| c s IH].
  - cbn. rewrite orb_false_r, startsWith_spec. split.
    + intros [rest Heq]. exists EmptyString, rest. exact Heq.
    + intros [[| x before] [after Heq]]; [now exists after | discriminate Heq].
  - cbn [includes]. rewrite orb_true_iff, startsWith_spec, IH. split.
    + intros [[rest Heq] | (before & after & ->)].
      * exists EmptyString, rest. exact Heq.
      * exists (String c before), after. reflexivity.
    + intros [[| x before] [after Heq]].
      * left. now exists after.
      * right. injection Heq as -> ->. now exists before, after.
Qed.

Lemma toLowerCase_app (a b : string) :
  toLowerCase (a ++ b) = toLowerCase a ++ toLowerCase b.
Proof.
  induction a as [| c a IH]; cbn; [reflexivity | now rewrite IH].
Qed.

(** A split of the lowered text comes from a split of the text. *)
Lemma toLowerCase_split (s u v : string) :
  toLowerCase s = u ++ v ->
  exists s1 s2, s = s1 ++ s2 /\ toLowerCase s1 = u /\ toLowerCase s2 = v.
Proof.
  revert s. induction u as [| c u IH]; intros s Heq.
  - exists EmptyString, s. repeat split. exact Heq.
  - destruct s as [| d s]; [discriminate Heq |].
    cbn in Heq. injection Heq as Hc Hrest.
    destruct (IH s Hrest) as (s1 & s2 & -> & H1 & H2).
    exists (String d s1), s2. cbn. rewrite H1, Hc. repeat split. exact H2.
Qed.

(** The user-agent test. *)
Lemma chrome_in_userAgent (ua : string) :
  includes "chrome" (if Js.truthy (toLowerCase ua) then toLowerCase ua
                     else EmptyString) = true
  <-> exists before word after,
        ua = before ++ word ++ after /\ toLowerCase word = "chrome".
Proof.
  assert (Hsame : (if Js.truthy (toLowerCase ua) then toLowerCase ua
                   else EmptyString) = toLowerCase ua)
    by (destruct (toLowerCase ua); reflexivity).
  rewrite Hsame, includes_spec. split.
  - intros (b' & a' & Heq).
    destruct (toLowerCase_split _ _ _ Heq) as (s1 & s2 & -> & _ & H2).
    destruct (toLowerCase_split _ _ _ H2) as (word & s3 & -> & Hword & _).
    now exists s1, word, s3.
  - intros (before & word & after & -> & Hword).
    exists (toLowerCase before), (toLowerCase after).
    now rewrite !toLowerCase_app, Hword.
Qed.

(** X17: on iOS and Android the function answers false without reading
    [window]. Elsewhere it throws a ReferenceError exactly when no global
    [window] is declared, and it answers true exactly when [window] is
    declared, the origin of the page is a string that contains
    [localhost], and the user agent is a string that contains the word
    chrome in any capitalization; in every other case it answers false. *)
Theorem isLocalhostSubdomainSupported_cases (r : Runtime) :
  (Platform_OS r = "ios" \/ Platform_OS r = "android" ->
   isLocalhostSubdomainSupported r = inr false)
  /\ ((exists e, isLocalhostSubdomainSupported r = inl e)
      <-> (Platform_OS r <> "ios" /\ Platform_OS r <> "android"
           /\ window r = Undeclared))
  /\ (window r = Undeclared -> Platform_OS r <> "ios" -> Platform_OS r <> "android" ->
      isLocalhostSubdomainSupported r = inl (Js.ErrorObject ReferenceError))
  /\ (isLocalhostSubdomainSupported r = inr true
      <-> (Platform_OS r <> "ios" /\ Platform_OS r <> "android"
           /\ exists before after before' word after',
                window r = Declared (Some (before ++ "localhost" ++ after))
                                    (Some (before' ++ word ++ after'))
                /\ toLowerCase word = "chrome")).
Proof.
  unfold isLocalhostSubdomainSupported.
  destruct (String.eqb_spec (Platform_OS r) "ios") as [Hios | Hios].
  { cbn. split; [intros _; reflexivity |].
    split; [split; [intros [e He]; discriminate He
                   | intros (Hno & _); contradiction] |].
    split; [intros _ Hno; contradiction |].
    split; [discriminate | intros (Hno & _); contradiction]. }
  destruct (String.eqb_spec (Platform_OS r) "android") as [Handroid | Handroid].
  { cbn. split; [intros _; reflexivity |].
    split; [split; [intros [e He]; discriminate He
                   | intros (_ & Hno & _); contradiction] |].
    split; [intros _ _ Hno; contradiction |].
    split; [discriminate | intros (_ & Hno & _); contradiction]. }
  cbn [orb].
  split; [intros [H | H]; contradiction |].
  destruct (window r) as [| origin ua].
  { split; [split; [auto | intros _; eexists; reflexivity] |].
    split; [reflexivity |].
    split; [discriminate |].
    intros (_ & _ & b & a & b' & word & a' & Heq & _). discriminate Heq. }
  assert (Hno_throw : forall b : bool,
    (exists e : Js.Unknown, @inr Js.Unknown bool b = inl e) -> False)
    by (intros b [e He]; discriminate He).
  assert (Hfalse : forall P : Prop,
      (P -> False) ->
      ((exists e : Js.Unknown, @inr Js.Unknown bool false = inl e)
       <-> Platform_OS r <> "ios" /\ Platform_OS r <> "android"
           /\ Declared origin ua = Undeclared)
      /\ (Declared origin ua = Undeclared -> Platform_OS r <> "ios" ->
          Platform_OS r <> "android" ->
          @inr Js.Unknown bool false = inl (Js.ErrorObject ReferenceError))
      /\ (@inr Js.Unknown bool false = inr true <-> P)).
  { intros P HP. split; [split |].
    - intros H. destruct (Hno_throw _ H).
    - intros (_ & _ & H). discriminate H.
    - split; [discriminate |]. split; [discriminate |].
      intros H. destruct (HP H). }
  destruct origin as [origin |].
  2:{ cbn. apply Hfalse.
      intros (_ & _ & b & a & b' & word & a' & Heq & _). discriminate Heq. }
  destruct (includes "localhost" origin) eqn:Horigin; cbn [negb].
  2:{ apply Hfalse.
      intros (_ & _ & b & a & b' & word & a' & Heq & _).
      injection Heq as Ho _. subst origin.
      assert (Hin : includes "localhost" (b ++ "localhost" ++ a) = true)
        by (apply includes_spec; eauto).
      pose proof (eq_trans (eq_sym Horigin) Hin) as Habs. discriminate Habs. }
  apply includes_spec in Horigin. destruct Horigin as (ob & oa & ->).
  destruct ua as [ua |].
  2:{ cbn. apply Hfalse.
      intros (_ & _ & b & a & b' & word & a' & Heq & _). discriminate Heq. }
  cbv zeta.
  destruct (includes "chrome"
              (if Js.truthy (toLowerCase ua) then toLowerCase ua else EmptyString))
    eqn:Hchrome.
  - apply chrome_in_userAgent in Hchrome.
    destruct Hchrome as (before & word & after & -> & Hword).
    split; [split |].
    + intros H. destruct (Hno_throw _ H).
    + intros (_ & _ & H). discriminate H.
    + split; [discriminate |]. split; [| reflexivity].
      intros _. split; [exact Hios |]. split; [exact Handroid |].
      exists ob, oa, before, word, after. split; [reflexivity | exact Hword].
  - apply Hfalse.
    intros (_ & _ & b & a & b' & word & a' & Heq & Hword).
    injection Heq as _ Hu. subst ua.
    assert (Hyes : includes "chrome"
              (if Js.truthy (toLowerCase (b' ++ word ++ a'))
               then toLowerCase (b' ++ word ++ a') else EmptyString) = true)
      by (apply chrome_in_userAgent; eauto).
    pose proof (eq_trans (eq_sym Hchrome) Hyes) as Habs. discriminate Habs.
Qed.

Lemma isLocalhostSubdomainSupported_cases_witness :
  isLocalhostSubdomainSupported Cases.phone = inr false
  /\ isLocalhostSubdomainSupported Cases.no_window
     = inl (Js.ErrorObject ReferenceError)
  /\ isLocalhostSubdomainSupported Cases.chrome_localhost = inr true.
Proof.
  split; [| split].
  - apply (proj1 (isLocalhostSubdomainSupported_cases Cases.phone)).
    right. reflexivity.
  - apply (proj1 (proj2 (proj2 (isLocalhostSubdomainSupported_cases Cases.no_window))));
      [reflexivity | discriminate | discriminate].
  - apply (proj2 (proj2 (proj2 (proj2
             (isLocalhostSubdomainSupported_cases Cases.chrome_localhost))))).
    split; [discriminate |]. split; [discriminate |].
    exists "http://app.", ":8081",
           "Mozilla/5.0 (Macintosh) AppleWebKit/537.36 ", "Chrome",
           "/120.0 Safari/537.36".
    split; reflexivity.
Defined.

End LocalhostExtras.

Section LoggedOutExtras.
Import Js LoggedOut.

Lemma settle_press (outcome : Settled) (s : State) :
  busy s = false ->
  handlePress_settle outcome (press s)
  = {| busy := false; error := error_of outcome |}.
Proof.
  intros Hidle. unfold press. rewrite Hidle.
  destruct outcome; reflexivity.
Qed.

(** X18: after any run of presses, each settled before the next, the
    button is enabled again and the error under it is that of the last
    login alone: none if it resolved, the prefixed message if it was
    rejected; errors of earlier presses never survive, and a rejection
    with [null] or [undefined] leaves no text but still re-enables the
    button. A press while busy changes nothing. *)
Theorem session_keeps_last_outcome
    (earlier : list Settled) (final : Settled) (s : State) :
  busy s = false ->
  session (earlier ++ [final]) s = {| busy := false; error := error_of final |}
  /\ (forall q, busy q = true -> press q = q).
Proof.
  intros Hidle. split.
  - unfold session. rewrite fold_left_app. cbn [fold_left].
    apply settle_press.
    revert s Hidle. induction earlier as [| o earlier IH]; intros s Hidle;
      [exact Hidle |].
    cbn [fold_left]. apply IH. rewrite settle_press by exact Hidle. reflexivity.
  - intros q Hbusy. unfold press. rewrite Hbusy. reflexivity.
Qed.

Lemma session_keeps_last_outcome_witness :
  session ([Rejected (Some "UserInterrupt"); RejectedNullish] ++ [Resolved])
    {| busy := false; error := None |}
  = {| busy := false; error := None |}
  /\ session ([Resolved] ++ [Rejected None]) {| busy := false; error := None |}
     = {| busy := false; error := Some "Error occurred during login: undefined" |}.
Proof.
  split.
  - exact (proj1 (session_keeps_last_outcome
                    [Rejected (Some "UserInterrupt"); RejectedNullish] Resolved
                    {| busy := false; error := None |} eq_refl)).
  - exact (proj1 (session_keeps_last_outcome [Resolved] (Rejected None)
                    {| busy := false; error := None |} eq_refl)).
Defined.

End LoggedOutExtras.

Section SuspensionExtras.
Import Js Bootstrap Layout.

Lemma closure_suspends_at_stage (w : World) (identity : option Identity)
    (isLoading_at_render : bool) (s s' : State) (p : Pending) :
  initAesKey_closure w identity isLoading_at_render s = (s', Some p) ->
  isLoading_at_render = false /\ suspended_at p s'.
Proof.
  unfold initAesKey_closure. destruct isLoading_at_render; [discriminate |].
  destruct identity as [identity |].
  - rewrite getTransportPublicKey_fresh. intros Heq. injection Heq as <- <-.
    repeat split.
  - intros Heq. injection Heq as <- <-. repeat split.
Qed.

Lemma resume_suspends_at_stage {cipher : Cipher} (w : World) (p p' : Pending)
    (s s' : State) :
  suspended_at p s ->
  initAesKey_resume w p s = (s', Some p') -> suspended_at p' s'.
Proof.
  intros (Hloading & Herror & Hattempted & _). destruct p; cbn [initAesKey_resume].
  - discriminate.
  - destruct (asymmetric_keys w identity transportPublicKey) as [e | reply];
      [discriminate |].
    cbv zeta. destruct (encrypted_aes_key reply), (encrypted_key reply);
      intros Heq; injection Heq as <- <-; repeat split; assumption.
  - rewrite decryptExistingAesKey_eq.
    destruct (transportKey (auth s)); [| discriminate].
    destruct (unwrap _ _ _ _ _); discriminate.
  - rewrite generateAndEncryptAesKey_eq. cbv zeta.
    destruct (wrap (freshAesKey w) publicKey principal); [| discriminate].
    intros Heq. injection Heq as <- <-. repeat split; assumption.
  - destruct (asymmetric_save_encrypted_aes_key w identity newEncryptedAesKey);
      discriminate.
Qed.

Lemma settle_suspends_at_stage {cipher : Cipher} (w : World) (fuel : nat)
    (c : State * option Pending) :
  (forall p, snd c = Some p -> suspended_at p (fst c)) ->
  forall p, snd (settle w fuel c) = Some p -> suspended_at p (fst (settle w fuel c)).
Proof.
  revert c. induction fuel as [| fuel IH]; intros [s [p0 |]] Hc p; cbn [settle];
    try (apply Hc).
  apply IH. intros p' Hp'.
  apply (resume_suspends_at_stage w p0 p' s (fst (initAesKey_resume w p0 s))).
  - exact (Hc p0 eq_refl).
  - rewrite <- Hp'. apply surjective_pairing.
Qed.

(** X19: while an attempt, running alone, is suspended at an [await],
    however far it has got: the callback that started it had captured
    [isLoading = false], the loading flag of the state is on, the error is
    cleared, the attempted ref is set, and what is rendered is the loading
    screen with the text of the very step that is awaited. *)
Theorem suspended_attempt_shows_its_stage {cipher : Cipher}
    (w : World) (identity : option Identity) (isLoading_at_render : bool)
    (s : State) (fuel : nat) (p : Pending) :
  snd (settle w fuel (initAesKey_closure w identity isLoading_at_render s)) = Some p ->
  let suspended :=
    fst (settle w fuel (initAesKey_closure w identity isLoading_at_render s)) in
  isLoading_at_render = false
  /\ isLoading suspended = true
  /\ error suspended = None
  /\ initializationAttempted suspended = true
  /\ status suspended = InProgress (stage_text p)
  /\ render true suspended = Preparing (stage_text p).
Proof.
  intros Hp. cbv zeta.
  assert (Hcaptured : isLoading_at_render = false).
  { destruct isLoading_at_render; [| reflexivity].
    destruct fuel; cbn in Hp; discriminate Hp. }
  destruct (settle_suspends_at_stage w fuel
              (initAesKey_closure w identity isLoading_at_render s)) with (p := p)
    as (Hloading & Herror & Hattempted & Hstage); [| exact Hp |].
  { intros p' Hp'.
    apply (closure_suspends_at_stage w identity isLoading_at_render s _ p').
    rewrite <- Hp'. apply surjective_pairing. }
  split; [exact Hcaptured |]. split; [exact Hloading |].
  split; [exact Herror |]. split; [exact Hattempted |].
  unfold status, render. cbn [negb]. rewrite Hloading, Hstage. split; reflexivity.
Qed.

Lemma suspended_attempt_shows_its_stage_witness :
  let suspended :=
    fst (@settle Scenario.toy Cases.world_neither 2
           (initAesKey_closure Cases.world_neither (Some Scenario.alice) false
              Scenario.startup)) in
  isLoading suspended = true
  /\ error suspended = None
  /\ render true suspended = Preparing "Saving encrypted AES key...".
Proof.
  destruct (@suspended_attempt_shows_its_stage Scenario.toy Cases.world_neither
              (Some Scenario.alice) false Scenario.startup 2
              (AwaitSaveEncryptedAesKey Scenario.alice [x20; x42; x43]) eq_refl)
    as (_ & Hloading & Herror & _ & _ & Hrender).
  split; [exact Hloading |]. split; [exact Herror | exact Hrender].
Defined.

End SuspensionExtras.

Section ExtraWitnesses.
Import Js.

Lemma parseParams_succeeds_iff_witness :
  exists r k i key,
    Handoff.get "redirect_uri" (Handoff.searchParams Scenario.page_ok) = Some r
    /\ Handoff.get "pubkey" (Handoff.searchParams Scenario.page_ok) = Some k
    /\ Handoff.get "ii_uri" (Handoff.searchParams Scenario.page_ok) = Some i
    /\ truthy r = true /\ truthy k = true /\ truthy i = true
    /\ Handoff.fromDer_fromHex Scenario.env_ok k = inr key
    /\ Scenario.parsed_ok
       = {| Handoff.redirectUri := r;
            Handoff.identity := Handoff.PublicKeyOnlyIdentity key;
            Handoff.iiUri := i |}.
Proof.
  apply (proj1 (proj1 (parseParams_succeeds_iff Scenario.env_ok Scenario.page_ok
                         Scenario.parsed_ok))).
  exists Scenario.page_ok. reflexivity.
Defined.

End ExtraWitnesses.

(* ===================================================================== *)
(** ** The guard of [initAesKey] and callbacks of an earlier render *)
(* ===================================================================== *)

Section GuardClaims.
Import Js Bootstrap.



(** C6 as stated fails: a reply that carries both wrapped fields, wrapped
    for another transport key, does not unwrap; the attempt ends Failed,
    not Completed, and no key is stored. *)
Lemma both_fields_invalid_fails :
  encrypted_aes_key Cases.reply_foreign = Some [x77; x78]
  /\ encrypted_key Cases.reply_foreign = Some [x55]
  /\ asymmetric_keys Cases.world_foreign Scenario.alice [x10]
     = inr Cases.reply_foreign
  /\ let s' := fst (@initAesKey Scenario.toy Cases.world_foreign
                      (Some Scenario.alice) Scenario.startup) in
     status s' <> Completed
     /\ status s'
        = Failed CryptoError
            "Failed to initialize AES key: CryptoError: cipher operation failed"
     /\ aesRawKey (auth s') = None
     /\ fetchKeys_calls s' = 1.
Proof.
  cbv zeta. repeat split. cbn. discriminate.
Qed.

End GuardClaims.
